(** * Leg construction in ql/CashFlows/cashflowvectors.cpp

    A shallow embedding of the coupon-vector builders of QuantLib's
    [cashflowvectors.cpp] ([FixedRateCouponVector], [CMSCouponVector],
    [CMSZeroCouponVector], [CMSInArrearsCouponVector] and the file-local
    helper [get]) together with the properties the design document states
    about them. [FloatingRateCouponVector] only forwards its arguments to
    [IndexedCouponVector], which lives in another file, and is left out.

    Exceptions ([QL_REQUIRE], [QL_FAIL]) are modelled by an error result;
    object construction and the post-construction mutation of the coupons
    are recorded in a trace of events, so that "no coupon was constructed"
    and "attached exactly once" are statements about a run. *)

From Stdlib Require Import String ZArith Lia.
From Stdlib Require QArith.
From stdpp Require Import base list.

Set Default Proof Using "Type".

(** ** External collaborators

    Dates, periods, calendars, day counters, indexes, pricers and
    volatility handles are declared in other headers; the builders only
    pass them around or call the few operations listed here. *)

Class Services : Type := {
  (** [Real] (= [Rate] = [Spread]): the builders never compute with it. *)
  Real : Type;
  Null_Real : Real;                (* Null<Real>(), Null<Rate>() *)
  Real_one : Real;                 (* the literal 1.0 *)
  Real_zero : Real;                (* the literal 0.0 *)
  Date : Type;
  Period : Type;
  Date_plus : Date -> Period -> Date;    (* operator+(Date, Period) *)
  Date_minus : Date -> Period -> Date;   (* operator-(Date, Period) *)
  BusinessDayConvention : Type;
  Calendar : Type;
  adjust : Calendar -> Date -> BusinessDayConvention -> Date;
  DayCounter : Type;
  DayCounter_empty : DayCounter -> bool;               (* dc.empty() *)
  DayCounter_eq : DayCounter -> DayCounter -> bool;    (* operator== *)
  SwapIndex : Type;                (* boost::shared_ptr<SwapIndex> *)
  VanillaCMSCouponPricer : Type;   (* boost::shared_ptr<VanillaCMSCouponPricer> *)
  VolatilityHandle : Type;         (* Handle<SwaptionVolatilityStructure> *)
}.

(** ** Errors and results *)

Inductive Error : Type :=
| Require_failed (msg : string)   (* thrown by QL_REQUIRE *)
| Fail_raised (msg : string)      (* thrown by QL_FAIL *)
| Undefined_behaviour.            (* operator[] or back() outside the vector *)

Inductive result (A : Type) : Type :=
| Ok (a : A)
| Err (e : Error).
Arguments Ok {A} a.
Arguments Err {A} e.

(** The spec's two error kinds. *)
Definition is_ConfigurationError (e : Error) : bool :=
  match e with Require_failed _ => true | _ => false end.

Definition is_InvariantViolation (e : Error) : bool :=
  match e with Fail_raised _ => true | _ => false end.

(** ** std::vector accessors *)

Definition vec_empty {A} (v : list A) : bool :=
  match v with [] => true | _ :: _ => false end.

Definition vec_at {A} (v : list A) (i : nat) : result A :=
  match v !! i with Some x => Ok x | None => Err Undefined_behaviour end.

Definition vec_back {A} (v : list A) : result A :=
  match last v with Some x => Ok x | None => Err Undefined_behaviour end.

Definition push_back {A} (v : list A) (x : A) : list A := v ++ [x].

Section CashFlowVectors.
Context `{Sv : Services}.

(** ** [get], lines 151-160 *)

Definition get (v : list Real) (i : nat) (defaultValue : Real) : result Real :=
  if vec_empty v then Ok defaultValue
  else if i <? length v then vec_at v i
  else vec_back v.

(** The broadcaster as section 4.1 of the design words it ([resolve]):
    empty gives the default, an index inside the array gives that element,
    anything else gives the last element. *)
Definition resolve (array : list Real) (index : nat) (default : Real) : Real :=
  match array with
  | [] => default
  | _ :: _ =>
      match array !! index with
      | Some x => x
      | None => match last array with Some x => x | None => default end
      end
  end.

(** ** Schedule *)

(** Modelled from the spec: the class [Schedule] (declared in
    ql/schedule.hpp). An ordered sequence of dates, one regularity flag for
    each index in [1, N-1], a tenor, a calendar and a business-day
    convention. *)
Record Schedule : Type := {
  dates : list Date;
  isRegular_ : list bool;          (* flag of period i at position i-1 *)
  tenor : Period;
  calendar : Calendar;
  businessDayConvention : BusinessDayConvention;
}.

Definition size (s : Schedule) : nat := length (dates s).

(** Modelled from the spec: the accessors [Schedule::date] and
    [Schedule::isRegular] (declared in ql/schedule.hpp). The schedule is an
    ordered sequence of dates with one regularity flag for each index in
    [1, N-1]; an index outside that data is rejected with an error. *)
Definition date (s : Schedule) (i : nat) : result Date :=
  match dates s !! i with
  | Some d => Ok d
  | None => Err (Require_failed "date index out of bounds")
  end.

Definition isRegular (s : Schedule) (i : nat) : result bool :=
  match i with
  | 0 => Err (Require_failed "regularity index out of bounds")
  | S k =>
      match isRegular_ s !! k with
      | Some b => Ok b
      | None => Err (Require_failed "regularity index out of bounds")
      end
  end.

(** ** Coupons *)

(** Modelled from the spec: the classes [FixedRateCoupon] and [CMSCoupon]
    (declared in ql/CashFlows/fixedratecoupon.hpp and cmscoupon.hpp). A
    coupon holds its nominal, payment date, accrual start and end,
    reference start and end and its rate parameters; the fields are listed
    in the order in which the constructor calls of this file pass them. *)
Record FixedRateCoupon : Type := mkFixedRateCoupon {
  frc_nominal : Real;
  frc_paymentDate : Date;
  frc_rate : Real;
  frc_dayCounter : DayCounter;
  frc_accrualStartDate : Date;
  frc_accrualEndDate : Date;
  frc_refPeriodStart : Date;
  frc_refPeriodEnd : Date;
}.

Record CMSCoupon : Type := mkCMSCoupon {
  cms_nominal : Real;
  cms_paymentDate : Date;
  cms_index : SwapIndex;
  cms_startDate : Date;
  cms_endDate : Date;
  cms_fixingDays : Z;
  cms_dayCounter : DayCounter;
  cms_pricer : VanillaCMSCouponPricer;
  cms_gearing : Real;
  cms_spread : Real;
  cms_cap : Real;
  cms_floor : Real;
  cms_meanReversion : Real;
  cms_refPeriodStart : Date;
  cms_refPeriodEnd : Date;
  cms_isInArrears : bool;
  cms_swaptionVol : option VolatilityHandle;   (* None until attached *)
}.

(** Modelled from the spec: the declaration of the [CMSCoupon] constructor
    (ql/CashFlows/cmscoupon.hpp). Its arguments are stored as given, no
    volatility is attached yet, and the trailing in-arrears argument
    defaults to "unset" when the caller leaves it out. *)
Definition CMSCoupon_isInArrears_default : bool := false.

Definition new_CMSCoupon (nominal : Real) (paymentDate : Date)
    (index : SwapIndex) (startDate endDate : Date) (fixingDays : Z)
    (dayCounter : DayCounter) (pricer : VanillaCMSCouponPricer)
    (gearing spread cap floor meanReversion : Real)
    (refPeriodStart refPeriodEnd : Date) (isInArrears : bool) : CMSCoupon :=
  mkCMSCoupon nominal paymentDate index startDate endDate fixingDays
    dayCounter pricer gearing spread cap floor meanReversion
    refPeriodStart refPeriodEnd isInArrears None.

Definition setSwaptionVolatility (c : CMSCoupon) (vol : VolatilityHandle)
    : CMSCoupon :=
  mkCMSCoupon (cms_nominal c) (cms_paymentDate c) (cms_index c)
    (cms_startDate c) (cms_endDate c) (cms_fixingDays c) (cms_dayCounter c)
    (cms_pricer c) (cms_gearing c) (cms_spread c) (cms_cap c) (cms_floor c)
    (cms_meanReversion c) (cms_refPeriodStart c) (cms_refPeriodEnd c)
    (cms_isInArrears c) (Some vol).

(** The dynamic type behind a [boost::shared_ptr<CashFlow>]. *)
Inductive CashFlow : Type :=
| CF_FixedRateCoupon (c : FixedRateCoupon)
| CF_CMSCoupon (c : CMSCoupon).

Definition dynamic_pointer_cast_CMSCoupon (cf : CashFlow) : option CMSCoupon :=
  match cf with
  | CF_CMSCoupon c => Some c
  | CF_FixedRateCoupon _ => None
  end.

(** The leg owns each coupon through exactly one pointer, so a coupon is
    identified with its position in the leg. *)
Abbreviation Leg := (list CashFlow).

(** The [Coupon] interface shared by both kinds. *)
Definition Coupon_nominal (cf : CashFlow) : Real :=
  match cf with
  | CF_FixedRateCoupon c => frc_nominal c
  | CF_CMSCoupon c => cms_nominal c
  end.

Definition CashFlow_date (cf : CashFlow) : Date :=
  match cf with
  | CF_FixedRateCoupon c => frc_paymentDate c
  | CF_CMSCoupon c => cms_paymentDate c
  end.

Definition accrualStartDate (cf : CashFlow) : Date :=
  match cf with
  | CF_FixedRateCoupon c => frc_accrualStartDate c
  | CF_CMSCoupon c => cms_startDate c
  end.

Definition accrualEndDate (cf : CashFlow) : Date :=
  match cf with
  | CF_FixedRateCoupon c => frc_accrualEndDate c
  | CF_CMSCoupon c => cms_endDate c
  end.

Definition referencePeriodStart (cf : CashFlow) : Date :=
  match cf with
  | CF_FixedRateCoupon c => frc_refPeriodStart c
  | CF_CMSCoupon c => cms_refPeriodStart c
  end.

Definition referencePeriodEnd (cf : CashFlow) : Date :=
  match cf with
  | CF_FixedRateCoupon c => frc_refPeriodEnd c
  | CF_CMSCoupon c => cms_refPeriodEnd c
  end.

(** ** Runs: a trace of events and a result *)

Inductive Event : Type :=
| Constructed (cf : CashFlow)                      (* a [new ...Coupon(...)] *)
| VolatilitySet (i : nat) (vol : VolatilityHandle). (* on the coupon leg[i] *)

Definition M (A : Type) : Type := (list Event * result A)%type.

Definition ret {A} (a : A) : M A := ([], Ok a).

Definition bind {A B} (m : M A) (f : A -> M B) : M B :=
  match m with
  | (t, Ok a) => let (t', r) := f a in (t ++ t', r)
  | (t, Err e) => (t, Err e)
  end.

Definition lift {A} (r : result A) : M A := ([], r).

Definition QL_REQUIRE (condition : bool) (msg : string) : M unit :=
  if condition then ret tt else lift (Err (Require_failed msg)).

Definition QL_FAIL {A} (msg : string) : M A := lift (Err (Fail_raised msg)).

Definition new (cf : CashFlow) : M CashFlow := ([Constructed cf], Ok cf).

Definition tell (e : Event) : M unit := ([e], Ok tt).

Local Notation "x <- m ;; k" := (bind m (fun x => k))
  (at level 100, m at next level, right associativity, only parsing).
Local Notation "m ;;; k" := (bind m (fun _ => k))
  (at level 100, right associativity, only parsing).

(** [for (Size i = lo; i < hi; i++) body], the bound being fixed while the
    loop runs. [Size] is unsigned; the model uses [nat], whose truncated
    subtraction differs from the wrap-around of [size()-1] only for an
    empty schedule, where [date] has already failed. *)
Fixpoint for_steps {St} (n i : nat) (body : nat -> St -> M St) (s : St) : M St :=
  match n with
  | O => ret s
  | S n' => s' <- body i s ;; for_steps n' (S i) body s'
  end.

Definition for_range {St} (lo hi : nat) (body : nat -> St -> M St) (s : St) : M St :=
  for_steps (hi - lo) lo body s.

(** ** [FixedRateCouponVector], lines 31-114 *)

Definition FixedRateCouponVector (schedule : Schedule)
    (paymentAdjustment : BusinessDayConvention)
    (nominals couponRates : list Real)
    (dayCount firstPeriodDayCount : DayCounter) : M Leg :=
  QL_REQUIRE (negb (vec_empty couponRates)) "coupon rates not specified" ;;;
  QL_REQUIRE (negb (vec_empty nominals)) "nominals not specified" ;;;
  let leg : Leg := [] in
  let calendar_ := calendar schedule in
  (* first period might be short or long *)
  start <- lift (date schedule 0) ;;
  end_ <- lift (date schedule 1) ;;
  let paymentDate := adjust calendar_ end_ paymentAdjustment in
  rate <- lift (vec_at couponRates 0) ;;
  nominal <- lift (vec_at nominals 0) ;;
  regular <- lift (isRegular schedule 1) ;;
  leg <- (if regular : bool then
            QL_REQUIRE (DayCounter_empty firstPeriodDayCount
                        || DayCounter_eq firstPeriodDayCount dayCount)
              "regular first coupon does not allow a first-period day count" ;;;
            c <- new (CF_FixedRateCoupon
                        (mkFixedRateCoupon nominal paymentDate rate dayCount
                           start end_ start end_)) ;;
            ret (push_back leg c)
          else
            let reference := Date_minus end_ (tenor schedule) in
            let reference :=
              adjust calendar_ reference (businessDayConvention schedule) in
            let dc := if DayCounter_empty firstPeriodDayCount
                      then dayCount else firstPeriodDayCount in
            c <- new (CF_FixedRateCoupon
                        (mkFixedRateCoupon nominal paymentDate rate dc
                           start end_ reference end_)) ;;
            ret (push_back leg c)) ;;
  (* regular periods *)
  st <- for_range 2 (size schedule - 1)
          (fun i '(start, end_, leg) =>
             let start := end_ in
             end_ <- lift (date schedule i) ;;
             let paymentDate := adjust calendar_ end_ paymentAdjustment in
             rate <- lift (if i - 1 <? length couponRates
                           then vec_at couponRates (i - 1)
                           else vec_back couponRates) ;;
             nominal <- lift (if i - 1 <? length nominals
                              then vec_at nominals (i - 1)
                              else vec_back nominals) ;;
             c <- new (CF_FixedRateCoupon
                         (mkFixedRateCoupon nominal paymentDate rate dayCount
                            start end_ start end_)) ;;
             ret (start, end_, push_back leg c))
          (start, end_, leg) ;;
  let '(start, end_, leg) := st in
  leg <- (if 2 <? size schedule then
            (* last period might be short or long *)
            let N := size schedule in
            let start := end_ in
            end_ <- lift (date schedule (N - 1)) ;;
            let paymentDate := adjust calendar_ end_ paymentAdjustment in
            rate <- lift (if N - 2 <? length couponRates
                          then vec_at couponRates (N - 2)
                          else vec_back couponRates) ;;
            nominal <- lift (if N - 2 <? length nominals
                             then vec_at nominals (N - 2)
                             else vec_back nominals) ;;
            regular <- lift (isRegular schedule (N - 1)) ;;
            if regular : bool then
              c <- new (CF_FixedRateCoupon
                          (mkFixedRateCoupon nominal paymentDate rate dayCount
                             start end_ start end_)) ;;
              ret (push_back leg c)
            else
              let reference := Date_plus start (tenor schedule) in
              let reference :=
                adjust calendar_ reference (businessDayConvention schedule) in
              c <- new (CF_FixedRateCoupon
                          (mkFixedRateCoupon nominal paymentDate rate dayCount
                             start end_ start reference)) ;;
              ret (push_back leg c)
          else ret leg) ;;
  ret leg.

(** ** The attachment loop, lines 259-266 (again at 364-371 and 473-480)

    [leg.size()] is evaluated once: the body assigns through the pointer
    [leg[i]] and never resizes the vector. *)

Definition attach_volatility (vol : VolatilityHandle) (leg : Leg) : M Leg :=
  for_range 0 (length leg)
    (fun i leg =>
       cf <- lift (vec_at leg i) ;;
       match dynamic_pointer_cast_CMSCoupon cf with
       | Some cmsCoupon =>
           tell (VolatilitySet i vol) ;;;
           ret (<[i := CF_CMSCoupon (setSwaptionVolatility cmsCoupon vol)]> leg)
       | None => QL_FAIL "unexpected error when casting to CMSCoupon"
       end)
    leg.

(** ** [CMSCouponVector], lines 164-269 *)

Definition CMSCouponVector (schedule : Schedule)
    (paymentAdjustment : BusinessDayConvention) (nominals : list Real)
    (index : SwapIndex) (settlementDays : Z) (dayCounter : DayCounter)
    (gearings spreads caps floors meanReversions : list Real)
    (pricer : VanillaCMSCouponPricer) (vol : VolatilityHandle) : M Leg :=
  let leg : Leg := [] in
  let calendar_ := calendar schedule in
  let N := size schedule in
  QL_REQUIRE (negb (vec_empty nominals)) "no nominal given" ;;;
  (* first period might be short or long *)
  start <- lift (date schedule 0) ;;
  end_ <- lift (date schedule 1) ;;
  let paymentDate := adjust calendar_ end_ paymentAdjustment in
  regular <- lift (isRegular schedule 1) ;;
  leg <- (if regular : bool then
            nominal <- lift (get nominals 0 Null_Real) ;;
            gearing <- lift (get gearings 0 Real_one) ;;
            spread <- lift (get spreads 0 Real_zero) ;;
            cap <- lift (get caps 0 Null_Real) ;;
            floor <- lift (get floors 0 Null_Real) ;;
            meanReversion <- lift (get meanReversions 0 Null_Real) ;;
            c <- new (CF_CMSCoupon
                        (new_CMSCoupon nominal paymentDate index start end_
                           settlementDays dayCounter pricer gearing spread cap floor
                           meanReversion start end_ CMSCoupon_isInArrears_default)) ;;
            ret (push_back leg c)
          else
            let reference := Date_minus end_ (tenor schedule) in
            let reference := adjust calendar_ reference paymentAdjustment in
            nominal <- lift (get nominals 0 Null_Real) ;;
            gearing <- lift (get gearings 0 Real_one) ;;
            spread <- lift (get spreads 0 Real_zero) ;;
            cap <- lift (get caps 0 Null_Real) ;;
            floor <- lift (get floors 0 Null_Real) ;;
            meanReversion <- lift (get meanReversions 0 Null_Real) ;;
            c <- new (CF_CMSCoupon
                        (new_CMSCoupon nominal paymentDate index start end_
                           settlementDays dayCounter pricer gearing spread cap floor
                           meanReversion reference end_ CMSCoupon_isInArrears_default)) ;;
            ret (push_back leg c)) ;;
  (* regular periods *)
  st <- for_range 2 (size schedule - 1)
          (fun i '(start, end_, leg) =>
             let start := end_ in
             end_ <- lift (date schedule i) ;;
             let paymentDate := adjust calendar_ end_ paymentAdjustment in
             nominal <- lift (get nominals (i - 1) Null_Real) ;;
             gearing <- lift (get gearings (i - 1) Real_one) ;;
             spread <- lift (get spreads (i - 1) Real_zero) ;;
             cap <- lift (get caps (i - 1) Null_Real) ;;
             floor <- lift (get floors (i - 1) Null_Real) ;;
             meanReversion <- lift (get meanReversions (i - 1) Null_Real) ;;
             c <- new (CF_CMSCoupon
                         (new_CMSCoupon nominal paymentDate index start end_
                            settlementDays dayCounter pricer gearing spread cap floor
                            meanReversion start end_ CMSCoupon_isInArrears_default)) ;;
             ret (start, end_, push_back leg c))
          (start, end_, leg) ;;
  let '(start, end_, leg) := st in
  leg <- (if 2 <? size schedule then
            (* last period might be short or long *)
            let start := end_ in
            end_ <- lift (date schedule (N - 1)) ;;
            let paymentDate := adjust calendar_ end_ paymentAdjustment in
            regular <- lift (isRegular schedule (N - 1)) ;;
            if regular : bool then
              nominal <- lift (get nominals (N - 2) Null_Real) ;;
              gearing <- lift (get gearings (N - 2) Real_one) ;;
              spread <- lift (get spreads (N - 2) Real_zero) ;;
              cap <- lift (get caps (N - 2) Null_Real) ;;
              floor <- lift (get floors (N - 2) Null_Real) ;;
              meanReversion <- lift (get meanReversions (N - 2) Null_Real) ;;
              c <- new (CF_CMSCoupon
                          (new_CMSCoupon nominal paymentDate index start end_
                             settlementDays dayCounter pricer gearing spread cap floor
                             meanReversion start end_ CMSCoupon_isInArrears_default)) ;;
              ret (push_back leg c)
            else
              let reference := Date_plus start (tenor schedule) in
              let reference := adjust calendar_ reference paymentAdjustment in
              nominal <- lift (get nominals (N - 2) Null_Real) ;;
              gearing <- lift (get gearings (N - 2) Real_one) ;;
              spread <- lift (get spreads (N - 2) Real_zero) ;;
              cap <- lift (get caps (N - 2) Null_Real) ;;
              floor <- lift (get floors (N - 2) Null_Real) ;;
              meanReversion <- lift (get meanReversions (N - 2) Null_Real) ;;
              c <- new (CF_CMSCoupon
                          (new_CMSCoupon nominal paymentDate index start end_
                             settlementDays dayCounter pricer gearing spread cap floor
                             meanReversion start reference CMSCoupon_isInArrears_default)) ;;
              ret (push_back leg c)
          else ret leg) ;;
  leg <- attach_volatility vol leg ;;
  ret leg.

(** ** [CMSZeroCouponVector], lines 271-374 *)

Definition CMSZeroCouponVector (schedule : Schedule)
    (paymentAdjustment : BusinessDayConvention) (nominals : list Real)
    (index : SwapIndex) (fixingDays : Z) (dayCounter : DayCounter)
    (gearings spreads caps floors meanReversions : list Real)
    (pricer : VanillaCMSCouponPricer) (vol : VolatilityHandle) : M Leg :=
  let leg : Leg := [] in
  let calendar_ := calendar schedule in
  let N := size schedule in
  QL_REQUIRE (negb (vec_empty nominals)) "no nominal given" ;;;
  (* All payment dates at the end *)
  last_ <- lift (date schedule (N - 1)) ;;
  let paymentDate := adjust calendar_ last_ paymentAdjustment in
  (* first period might be short or long *)
  start <- lift (date schedule 0) ;;
  end_ <- lift (date schedule 1) ;;
  regular <- lift (isRegular schedule 1) ;;
  leg <- (if regular : bool then
            nominal <- lift (get nominals 0 Null_Real) ;;
            gearing <- lift (get gearings 0 Real_one) ;;
            spread <- lift (get spreads 0 Real_zero) ;;
            cap <- lift (get caps 0 Null_Real) ;;
            floor <- lift (get floors 0 Null_Real) ;;
            meanReversion <- lift (get meanReversions 0 Null_Real) ;;
            c <- new (CF_CMSCoupon
                        (new_CMSCoupon nominal paymentDate index start end_
                           fixingDays dayCounter pricer gearing spread cap floor
                           meanReversion start end_ CMSCoupon_isInArrears_default)) ;;
            ret (push_back leg c)
          else
            let reference := Date_minus end_ (tenor schedule) in
            let reference := adjust calendar_ reference paymentAdjustment in
            nominal <- lift (get nominals 0 Null_Real) ;;
            gearing <- lift (get gearings 0 Real_one) ;;
            spread <- lift (get spreads 0 Real_zero) ;;
            cap <- lift (get caps 0 Null_Real) ;;
            floor <- lift (get floors 0 Null_Real) ;;
            meanReversion <- lift (get meanReversions 0 Null_Real) ;;
            c <- new (CF_CMSCoupon
                        (new_CMSCoupon nominal paymentDate index start end_
                           fixingDays dayCounter pricer gearing spread cap floor
                           meanReversion reference end_ CMSCoupon_isInArrears_default)) ;;
            ret (push_back leg c)) ;;
  (* regular periods *)
  st <- for_range 2 (size schedule - 1)
          (fun i '(start, end_, leg) =>
             let start := end_ in
             end_ <- lift (date schedule i) ;;
             nominal <- lift (get nominals (i - 1) Null_Real) ;;
             gearing <- lift (get gearings (i - 1) Real_one) ;;
             spread <- lift (get spreads (i - 1) Real_zero) ;;
             cap <- lift (get caps (i - 1) Null_Real) ;;
             floor <- lift (get floors (i - 1) Null_Real) ;;
             meanReversion <- lift (get meanReversions (i - 1) Null_Real) ;;
             c <- new (CF_CMSCoupon
                         (new_CMSCoupon nominal paymentDate index start end_
                            fixingDays dayCounter pricer gearing spread cap floor
                            meanReversion start end_ CMSCoupon_isInArrears_default)) ;;
             ret (start, end_, push_back leg c))
          (start, end_, leg) ;;
  let '(start, end_, leg) := st in
  leg <- (if 2 <? size schedule then
            (* last period might be short or long *)
            let start := end_ in
            end_ <- lift (date schedule (N - 1)) ;;
            regular <- lift (isRegular schedule (N - 1)) ;;
            if regular : bool then
              nominal <- lift (get nominals (N - 2) Null_Real) ;;
              gearing <- lift (get gearings (N - 2) Real_one) ;;
              spread <- lift (get spreads (N - 2) Real_zero) ;;
              cap <- lift (get caps (N - 2) Null_Real) ;;
              floor <- lift (get floors (N - 2) Null_Real) ;;
              meanReversion <- lift (get meanReversions (N - 2) Null_Real) ;;
              c <- new (CF_CMSCoupon
                          (new_CMSCoupon nominal paymentDate index start end_
                             fixingDays dayCounter pricer gearing spread cap floor
                             meanReversion start end_ CMSCoupon_isInArrears_default)) ;;
              ret (push_back leg c)
            else
              let reference := Date_plus start (tenor schedule) in
              let reference := adjust calendar_ reference paymentAdjustment in
              nominal <- lift (get nominals (N - 2) Null_Real) ;;
              gearing <- lift (get gearings (N - 2) Real_one) ;;
              spread <- lift (get spreads (N - 2) Real_zero) ;;
              cap <- lift (get caps (N - 2) Null_Real) ;;
              floor <- lift (get floors (N - 2) Null_Real) ;;
              meanReversion <- lift (get meanReversions (N - 2) Null_Real) ;;
              c <- new (CF_CMSCoupon
                          (new_CMSCoupon nominal paymentDate index start end_
                             fixingDays dayCounter pricer gearing spread cap floor
                             meanReversion start reference CMSCoupon_isInArrears_default)) ;;
              ret (push_back leg c)
          else ret leg) ;;
  leg <- attach_volatility vol leg ;;
  ret leg.

(** ** [CMSInArrearsCouponVector], lines 378-483 *)

Definition CMSInArrearsCouponVector (schedule : Schedule)
    (paymentAdjustment : BusinessDayConvention) (nominals : list Real)
    (index : SwapIndex) (fixingDays : Z) (dayCounter : DayCounter)
    (gearings spreads caps floors meanReversions : list Real)
    (pricer : VanillaCMSCouponPricer) (vol : VolatilityHandle) : M Leg :=
  let leg : Leg := [] in
  let calendar_ := calendar schedule in
  let N := size schedule in
  QL_REQUIRE (negb (vec_empty nominals)) "no nominal given" ;;;
  (* first period might be short or long *)
  start <- lift (date schedule 0) ;;
  end_ <- lift (date schedule 1) ;;
  let paymentDate := adjust calendar_ end_ paymentAdjustment in
  regular <- lift (isRegular schedule 1) ;;
  leg <- (if regular : bool then
            nominal <- lift (get nominals 0 Null_Real) ;;
            gearing <- lift (get gearings 0 Real_one) ;;
            spread <- lift (get spreads 0 Real_zero) ;;
            cap <- lift (get caps 0 Null_Real) ;;
            floor <- lift (get floors 0 Null_Real) ;;
            meanReversion <- lift (get meanReversions 0 Null_Real) ;;
            c <- new (CF_CMSCoupon
                        (new_CMSCoupon nominal paymentDate index start end_
                           fixingDays dayCounter pricer gearing spread cap floor
                           meanReversion start end_ true)) ;;
            ret (push_back leg c)
          else
            let reference := Date_minus end_ (tenor schedule) in
            let reference := adjust calendar_ reference paymentAdjustment in
            nominal <- lift (get nominals 0 Null_Real) ;;
            gearing <- lift (get gearings 0 Real_one) ;;
            spread <- lift (get spreads 0 Real_zero) ;;
            cap <- lift (get caps 0 Null_Real) ;;
            floor <- lift (get floors 0 Null_Real) ;;
            meanReversion <- lift (get meanReversions 0 Null_Real) ;;
            c <- new (CF_CMSCoupon
                        (new_CMSCoupon nominal paymentDate index start end_
                           fixingDays dayCounter pricer gearing spread cap floor
                           meanReversion reference end_ true)) ;;
            ret (push_back leg c)) ;;
  (* regular periods *)
  st <- for_range 2 (size schedule - 1)
          (fun i '(start, end_, leg) =>
             let start := end_ in
             end_ <- lift (date schedule i) ;;
             let paymentDate := adjust calendar_ end_ paymentAdjustment in
             nominal <- lift (get nominals (i - 1) Null_Real) ;;
             gearing <- lift (get gearings (i - 1) Real_one) ;;
             spread <- lift (get spreads (i - 1) Real_zero) ;;
             cap <- lift (get caps (i - 1) Null_Real) ;;
             floor <- lift (get floors (i - 1) Null_Real) ;;
             meanReversion <- lift (get meanReversions (i - 1) Null_Real) ;;
             c <- new (CF_CMSCoupon
                         (new_CMSCoupon nominal paymentDate index start end_
                            fixingDays dayCounter pricer gearing spread cap floor
                            meanReversion start end_ true)) ;;
             ret (start, end_, push_back leg c))
          (start, end_, leg) ;;
  let '(start, end_, leg) := st in
  leg <- (if 2 <? size schedule then
            (* last period might be short or long *)
            let start := end_ in
            end_ <- lift (date schedule (N - 1)) ;;
            let paymentDate := adjust calendar_ end_ paymentAdjustment in
            regular <- lift (isRegular schedule (N - 1)) ;;
            if regular : bool then
              nominal <- lift (get nominals (N - 2) Null_Real) ;;
              gearing <- lift (get gearings (N - 2) Real_one) ;;
              spread <- lift (get spreads (N - 2) Real_zero) ;;
              cap <- lift (get caps (N - 2) Null_Real) ;;
              floor <- lift (get floors (N - 2) Null_Real) ;;
              meanReversion <- lift (get meanReversions (N - 2) Null_Real) ;;
              c <- new (CF_CMSCoupon
                          (new_CMSCoupon nominal paymentDate index start end_
                             fixingDays dayCounter pricer gearing spread cap floor
                             meanReversion start end_ true)) ;;
              ret (push_back leg c)
            else
              let reference := Date_plus start (tenor schedule) in
              let reference := adjust calendar_ reference paymentAdjustment in
              nominal <- lift (get nominals (N - 2) Null_Real) ;;
              gearing <- lift (get gearings (N - 2) Real_one) ;;
              spread <- lift (get spreads (N - 2) Real_zero) ;;
              cap <- lift (get caps (N - 2) Null_Real) ;;
              floor <- lift (get floors (N - 2) Null_Real) ;;
              meanReversion <- lift (get meanReversions (N - 2) Null_Real) ;;
              c <- new (CF_CMSCoupon
                          (new_CMSCoupon nominal paymentDate index start end_
                             fixingDays dayCounter pricer gearing spread cap floor
                             meanReversion start reference true)) ;;
              ret (push_back leg c)
          else ret leg) ;;
  leg <- attach_volatility vol leg ;;
  ret leg.

(** ** The four builders behind one interface

    [Args] gathers the parameters of the four builders; a builder
    ignores the fields it does not take ([couponRates] and
    [firstPeriodDayCount] are read by the fixed-rate builder only, the
    index, lag, pricer, volatility and the five optional arrays by the CMS
    builders only). *)

Inductive Builder : Type := FixedRate | CMS | CMSZero | CMSInArrears.

Record Args : Type := {
  arg_schedule : Schedule;
  arg_paymentAdjustment : BusinessDayConvention;
  arg_nominals : list Real;
  arg_couponRates : list Real;
  arg_dayCounter : DayCounter;
  arg_firstPeriodDayCount : DayCounter;
  arg_index : SwapIndex;
  arg_days : Z;
  arg_gearings : list Real;
  arg_spreads : list Real;
  arg_caps : list Real;
  arg_floors : list Real;
  arg_meanReversions : list Real;
  arg_pricer : VanillaCMSCouponPricer;
  arg_vol : VolatilityHandle;
}.

Definition build (b : Builder) (a : Args) : M Leg :=
  match b with
  | FixedRate =>
      FixedRateCouponVector (arg_schedule a) (arg_paymentAdjustment a)
        (arg_nominals a) (arg_couponRates a) (arg_dayCounter a)
        (arg_firstPeriodDayCount a)
  | CMS =>
      CMSCouponVector (arg_schedule a) (arg_paymentAdjustment a)
        (arg_nominals a) (arg_index a) (arg_days a) (arg_dayCounter a)
        (arg_gearings a) (arg_spreads a) (arg_caps a) (arg_floors a)
        (arg_meanReversions a) (arg_pricer a) (arg_vol a)
  | CMSZero =>
      CMSZeroCouponVector (arg_schedule a) (arg_paymentAdjustment a)
        (arg_nominals a) (arg_index a) (arg_days a) (arg_dayCounter a)
        (arg_gearings a) (arg_spreads a) (arg_caps a) (arg_floors a)
        (arg_meanReversions a) (arg_pricer a) (arg_vol a)
  | CMSInArrears =>
      CMSInArrearsCouponVector (arg_schedule a) (arg_paymentAdjustment a)
        (arg_nominals a) (arg_index a) (arg_days a) (arg_dayCounter a)
        (arg_gearings a) (arg_spreads a) (arg_caps a) (arg_floors a)
        (arg_meanReversions a) (arg_pricer a) (arg_vol a)
  end.

Definition is_CMS_builder (b : Builder) : bool :=
  match b with FixedRate => false | _ => true end.

(** A schedule as the data model describes it: at least two dates and one
    regularity flag for each of the N-1 periods. *)
Definition well_formed (s : Schedule) : bool :=
  (2 <=? size s) && (length (isRegular_ s) =? size s - 1).

(** The flag of period [j] (0-based), i.e. [isRegular(j+1)]. *)
Definition period_regular (s : Schedule) (j : nat) : bool :=
  match isRegular_ s !! j with Some r => r | None => true end.

(** What a caller has to supply for the builder to go through. *)
Definition accepts (b : Builder) (a : Args) : bool :=
  well_formed (arg_schedule a)
  && negb (vec_empty (arg_nominals a))
  && match b with
     | FixedRate =>
         negb (vec_empty (arg_couponRates a))
         && (negb (period_regular (arg_schedule a) 0)
             || DayCounter_empty (arg_firstPeriodDayCount a)
             || DayCounter_eq (arg_firstPeriodDayCount a) (arg_dayCounter a))
     | _ => true
     end.

(** A required array is missing: [nominals] for every builder,
    [couponRates] too for the fixed-rate builder. *)
Definition missing_required (b : Builder) (a : Args) : bool :=
  vec_empty (arg_nominals a)
  || match b with
     | FixedRate => vec_empty (arg_couponRates a)
     | _ => false
     end.

(** ** Closed form of a successful run *)

(** The convention a builder uses when it adjusts a stub's reference date. *)
Definition stub_convention (b : Builder) (a : Args) : BusinessDayConvention :=
  match b with
  | FixedRate => businessDayConvention (arg_schedule a)
  | _ => arg_paymentAdjustment a
  end.

Definition reference_period (b : Builder) (a : Args) (j : nat)
    (start end_ : Date) : Date * Date :=
  let s := arg_schedule a in
  let adj d := adjust (calendar s) d (stub_convention b a) in
  if j =? 0 then
    if period_regular s 0 then (start, end_)
    else (adj (Date_minus end_ (tenor s)), end_)
  else if j =? size s - 2 then
    if period_regular s (size s - 2) then (start, end_)
    else (start, adj (Date_plus start (tenor s)))
  else (start, end_).

Definition payment_date (b : Builder) (a : Args) (end_ last_ : Date) : Date :=
  adjust (calendar (arg_schedule a))
    (match b with CMSZero => last_ | _ => end_ end) (arg_paymentAdjustment a).

Definition in_arrears (b : Builder) : bool :=
  match b with CMSInArrears => true | _ => CMSCoupon_isInArrears_default end.

(** The coupon of period [j] with accrual dates [start], [end_]; [att] tells
    whether the volatility has been attached already. *)
Definition period_coupon (b : Builder) (a : Args) (att : bool)
    (last_ : Date) (j : nat) (p : Date * Date) : CashFlow :=
  let s := arg_schedule a in
  let '(start, end_) := p in
  let '(rs, re) := reference_period b a j start end_ in
  let pay := payment_date b a end_ last_ in
  match b with
  | FixedRate =>
      let dc :=
        if (j =? 0) && negb (period_regular s 0)
           && negb (DayCounter_empty (arg_firstPeriodDayCount a))
        then arg_firstPeriodDayCount a else arg_dayCounter a in
      CF_FixedRateCoupon
        (mkFixedRateCoupon (resolve (arg_nominals a) j Null_Real) pay
           (resolve (arg_couponRates a) j Null_Real) dc start end_ rs re)
  | _ =>
      CF_CMSCoupon
        (mkCMSCoupon (resolve (arg_nominals a) j Null_Real) pay (arg_index a)
           start end_ (arg_days a) (arg_dayCounter a) (arg_pricer a)
           (resolve (arg_gearings a) j Real_one)
           (resolve (arg_spreads a) j Real_zero)
           (resolve (arg_caps a) j Null_Real)
           (resolve (arg_floors a) j Null_Real)
           (resolve (arg_meanReversions a) j Null_Real)
           rs re (in_arrears b)
           (if att then Some (arg_vol a) else None))
  end.

(** The accrual periods of a schedule: consecutive pairs of dates. *)
Definition periods (s : Schedule) : list (Date * Date) :=
  zip (dates s) (tail (dates s)).

Definition period_leg (b : Builder) (a : Args) (att : bool) : Leg :=
  match last (dates (arg_schedule a)) with
  | Some last_ => imap (period_coupon b a att last_) (periods (arg_schedule a))
  | None => []
  end.

Definition run_trace (b : Builder) (a : Args) : list Event :=
  (Constructed <$> period_leg b a false)
  ++ (if is_CMS_builder b
      then (fun i => VolatilitySet i (arg_vol a))
             <$> seq 0 (size (arg_schedule a) - 1)
      else []).

(** A leg element once the attachment loop has visited it. *)
Definition attached (vol : VolatilityHandle) (cf : CashFlow) : CashFlow :=
  match cf with
  | CF_CMSCoupon c => CF_CMSCoupon (setSwaptionVolatility c vol)
  | CF_FixedRateCoupon _ => cf
  end.

Definition is_CMSCoupon (cf : CashFlow) : bool :=
  match dynamic_pointer_cast_CMSCoupon cf with Some _ => true | None => false end.

(** [runs m t x]: the computation succeeds with value [x], leaving the
    trace [t]. *)
Definition runs {A} (m : M A) (t : list Event) (x : A) : Prop := m = (t, Ok x).

(** What a trace says: the coupons constructed, in order, and the handles
    attached to the coupon at position [i], in order. *)
Fixpoint constructed (t : list Event) : list CashFlow :=
  match t with
  | [] => []
  | Constructed cf :: t' => cf :: constructed t'
  | VolatilitySet _ _ :: t' => constructed t'
  end.

Fixpoint volatility_sets (t : list Event) (i : nat) : list VolatilityHandle :=
  match t with
  | [] => []
  | Constructed _ :: t' => volatility_sets t' i
  | VolatilitySet k vol :: t' =>
      if k =? i then vol :: volatility_sets t' i else volatility_sets t' i
  end.

(** [wp m Q]: [m] either succeeds with a value satisfying [Q] or fails with
    a configuration error; it neither hits [QL_FAIL] nor leaves a vector. *)
Definition wp {A} (m : M A) (Q : A -> Prop) : Prop :=
  match m.2 with
  | Ok a => Q a
  | Err e => is_ConfigurationError e = true
  end.

(** The run ended in a [QL_FAIL]; the only one in the file is the failed
    cast of the attachment loop. *)
Definition failed_cast {A} (m : M A) : bool :=
  match m.2 with
  | Ok _ => false
  | Err e => is_InvariantViolation e
  end.

(** ** Variations of the inputs and of a leg

    Used to compare two runs of a builder, or two legs. *)

Definition set_isRegular (s : Schedule) (flags : list bool) : Schedule := {|
  dates := dates s;
  isRegular_ := flags;
  tenor := tenor s;
  calendar := calendar s;
  businessDayConvention := businessDayConvention s;
|}.

Definition set_tenor_and_convention (s : Schedule) (t : Period)
    (c : BusinessDayConvention) : Schedule := {|
  dates := dates s;
  isRegular_ := isRegular_ s;
  tenor := t;
  calendar := calendar s;
  businessDayConvention := c;
|}.

Definition set_schedule (a : Args) (s : Schedule) : Args := {|
  arg_schedule := s;
  arg_paymentAdjustment := arg_paymentAdjustment a;
  arg_nominals := arg_nominals a;
  arg_couponRates := arg_couponRates a;
  arg_dayCounter := arg_dayCounter a;
  arg_firstPeriodDayCount := arg_firstPeriodDayCount a;
  arg_index := arg_index a;
  arg_days := arg_days a;
  arg_gearings := arg_gearings a;
  arg_spreads := arg_spreads a;
  arg_caps := arg_caps a;
  arg_floors := arg_floors a;
  arg_meanReversions := arg_meanReversions a;
  arg_pricer := arg_pricer a;
  arg_vol := arg_vol a;
|}.

(** The same call with every per-period array passed through [f]. *)
Definition map_arrays (f : list Real -> list Real) (a : Args) : Args := {|
  arg_schedule := arg_schedule a;
  arg_paymentAdjustment := arg_paymentAdjustment a;
  arg_nominals := f (arg_nominals a);
  arg_couponRates := f (arg_couponRates a);
  arg_dayCounter := arg_dayCounter a;
  arg_firstPeriodDayCount := arg_firstPeriodDayCount a;
  arg_index := arg_index a;
  arg_days := arg_days a;
  arg_gearings := f (arg_gearings a);
  arg_spreads := f (arg_spreads a);
  arg_caps := f (arg_caps a);
  arg_floors := f (arg_floors a);
  arg_meanReversions := f (arg_meanReversions a);
  arg_pricer := arg_pricer a;
  arg_vol := arg_vol a;
|}.

(** [v] followed by [k] more copies of its last element. *)
Definition hold_last (k : nat) (v : list Real) : list Real :=
  match last v with
  | Some x => v ++ replicate k x
  | None => v
  end.

Definition with_paymentDate (d : Date) (cf : CashFlow) : CashFlow :=
  match cf with
  | CF_FixedRateCoupon c =>
      CF_FixedRateCoupon
        (mkFixedRateCoupon (frc_nominal c) d (frc_rate c) (frc_dayCounter c)
           (frc_accrualStartDate c) (frc_accrualEndDate c)
           (frc_refPeriodStart c) (frc_refPeriodEnd c))
  | CF_CMSCoupon c =>
      CF_CMSCoupon
        (mkCMSCoupon (cms_nominal c) d (cms_index c) (cms_startDate c)
           (cms_endDate c) (cms_fixingDays c) (cms_dayCounter c) (cms_pricer c)
           (cms_gearing c) (cms_spread c) (cms_cap c) (cms_floor c)
           (cms_meanReversion c) (cms_refPeriodStart c) (cms_refPeriodEnd c)
           (cms_isInArrears c) (cms_swaptionVol c))
  end.

Definition with_isInArrears (flag : bool) (cf : CashFlow) : CashFlow :=
  match cf with
  | CF_FixedRateCoupon _ => cf
  | CF_CMSCoupon c =>
      CF_CMSCoupon
        (mkCMSCoupon (cms_nominal c) (cms_paymentDate c) (cms_index c)
           (cms_startDate c) (cms_endDate c) (cms_fixingDays c)
           (cms_dayCounter c) (cms_pricer c) (cms_gearing c) (cms_spread c)
           (cms_cap c) (cms_floor c) (cms_meanReversion c)
           (cms_refPeriodStart c) (cms_refPeriodEnd c) flag
           (cms_swaptionVol c))
  end.

End CashFlowVectors.

(** ** A concrete instance

    Dates are serial day numbers, a period is a number of days, a calendar
    is its business-day predicate, and [sample_adjust] rolls forward or
    backward to the next business day. *)

Inductive SampleConvention : Type := Unadjusted | Following | Preceding.

Fixpoint roll (isBusinessDay : Z -> bool) (step : Z) (fuel : nat) (d : Z) : Z :=
  match fuel with
  | O => d
  | S fuel' =>
      if isBusinessDay d then d else roll isBusinessDay step fuel' (d + step)
  end.

Definition sample_adjust (cal : Z -> bool) (d : Z) (c : SampleConvention) : Z :=
  match c with
  | Unadjusted => d
  | Following => roll cal 1 31 d
  | Preceding => roll cal (-1) 31 d
  end.

(** Days 5 and 6 of every week are holidays. *)
Definition weekends_only (d : Z) : bool := (d mod 7 <? 5)%Z.

Definition sample_services : Services := {|
  Real := QArith_base.Q;
  Null_Real := QArith_base.Qmake 340282346638528859811704183484516925440 1;
  Real_one := QArith_base.Qmake 1 1;
  Real_zero := QArith_base.Qmake 0 1;
  Date := Z;
  Period := Z;
  Date_plus := Z.add;
  Date_minus := Z.sub;
  BusinessDayConvention := SampleConvention;
  Calendar := Z -> bool;
  adjust := sample_adjust;
  DayCounter := option string;
  DayCounter_empty := fun dc => match dc with None => true | Some _ => false end;
  DayCounter_eq := fun d1 d2 =>
    match d1, d2 with
    | None, None => true
    | Some n1, Some n2 => String.eqb n1 n2
    | _, _ => false
    end;
  SwapIndex := string;
  VanillaCMSCouponPricer := unit;
  VolatilityHandle := nat;
|}.

(** Five quarterly dates, every period regular. *)
Definition quarterly_schedule : Schedule (Sv := sample_services) := {|
  dates := ([0; 91; 182; 273; 364]%Z : list (@Date sample_services));
  isRegular_ := [true; true; true; true];
  tenor := 91%Z;
  calendar := weekends_only;
  businessDayConvention := Following;
|}.

(** A short first period and a short last period around one regular
    period; the unadjusted reference dates 94 - 89 = 5 and 183 + 89 = 272
    fall on holidays. *)
Definition stub_schedule : Schedule (Sv := sample_services) := {|
  dates := ([50; 94; 183; 240]%Z : list (@Date sample_services));
  isRegular_ := [false; true; false];
  tenor := 89%Z;
  calendar := weekends_only;
  businessDayConvention := Following;
|}.

(** A single period. *)
Definition single_period_schedule : Schedule (Sv := sample_services) := {|
  dates := ([50; 94]%Z : list (@Date sample_services));
  isRegular_ := [false];
  tenor := 89%Z;
  calendar := weekends_only;
  businessDayConvention := Following;
|}.

Definition sample_arguments (s : Schedule (Sv := sample_services))
    (pa : SampleConvention)
    (nominals couponRates : list (@Real sample_services))
    (fpdc : option string) : Args (Sv := sample_services) := {|
  arg_schedule := s;
  arg_paymentAdjustment := pa;
  arg_nominals := nominals;
  arg_couponRates := couponRates;
  arg_dayCounter := Some "Actual/360"%string;
  arg_firstPeriodDayCount := fpdc;
  arg_index := "EuriborSwapFixA10Y"%string;
  arg_days := 2%Z;
  arg_gearings := [];
  arg_spreads := ([QArith_base.Qmake 1 1000] : list (@Real sample_services));
  arg_caps := [];
  arg_floors := [];
  arg_meanReversions := [];
  arg_pricer := tt;
  arg_vol := 7;
|}.

Definition quarterly_arguments : Args (Sv := sample_services) :=
  sample_arguments quarterly_schedule Following
    [QArith_base.Qmake 1000 1]
    [QArith_base.Qmake 3 100; QArith_base.Qmake 35 1000] None.

Definition stub_arguments : Args (Sv := sample_services) :=
  sample_arguments stub_schedule Preceding
    [QArith_base.Qmake 1000 1; QArith_base.Qmake 900 1]
    [QArith_base.Qmake 3 100] None.

Definition single_period_arguments : Args (Sv := sample_services) :=
  sample_arguments single_period_schedule Preceding
    [QArith_base.Qmake 1000 1] [QArith_base.Qmake 3 100] None.

(** The quarterly leg again, with an explicit first-period day count that
    names the leg's own day count. *)
Definition override_arguments : Args (Sv := sample_services) :=
  sample_arguments quarterly_schedule Following
    [QArith_base.Qmake 1000 1]
    [QArith_base.Qmake 3 100; QArith_base.Qmake 35 1000]
    (Some "Actual/360"%string).

(** The same, naming another day count. *)
Definition conflicting_arguments : Args (Sv := sample_services) :=
  sample_arguments quarterly_schedule Following
    [QArith_base.Qmake 1000 1]
    [QArith_base.Qmake 3 100; QArith_base.Qmake 35 1000]
    (Some "30/360"%string).

(** No nominal given. *)
Definition empty_nominals_arguments : Args (Sv := sample_services) :=
  sample_arguments quarterly_schedule Following []
    [QArith_base.Qmake 3 100] None.

(** Neither rates nor nominals. *)
Definition nothing_given_arguments : Args (Sv := sample_services) :=
  sample_arguments quarterly_schedule Following [] [] None.

(** The stub schedule with a first-period day count of its own. *)
Definition stub_override_arguments : Args (Sv := sample_services) :=
  sample_arguments stub_schedule Preceding
    [QArith_base.Qmake 1000 1; QArith_base.Qmake 900 1]
    [QArith_base.Qmake 3 100] (Some "30/360"%string).

(** More entries than the four periods need. *)
Definition long_arrays_arguments : Args (Sv := sample_services) :=
  sample_arguments quarterly_schedule Following
    [QArith_base.Qmake 1000 1; QArith_base.Qmake 900 1; QArith_base.Qmake 800 1;
     QArith_base.Qmake 700 1; QArith_base.Qmake 600 1; QArith_base.Qmake 500 1]
    [QArith_base.Qmake 3 100; QArith_base.Qmake 35 1000; QArith_base.Qmake 4 100;
     QArith_base.Qmake 45 1000; QArith_base.Qmake 5 100]
    None.

Definition sample_CMSCoupon (nominal : @Real sample_services)
    : CMSCoupon (Sv := sample_services) :=
  new_CMSCoupon (Sv := sample_services) nominal 91%Z
    "EuriborSwapFixA10Y"%string 0%Z 91%Z 2%Z (Some "Actual/360"%string) tt
    Real_one Real_zero Null_Real Null_Real Null_Real 0%Z 91%Z false.

Definition sample_FixedRateCoupon : FixedRateCoupon (Sv := sample_services) :=
  mkFixedRateCoupon (Sv := sample_services) (QArith_base.Qmake 1000 1) 91%Z
    (QArith_base.Qmake 3 100) (Some "Actual/360"%string) 0%Z 91%Z 0%Z 91%Z.

Definition second_handle : @VolatilityHandle sample_services := 9.

Definition sample_cms_leg : list (CashFlow (Sv := sample_services)) :=
  [CF_CMSCoupon (sample_CMSCoupon (QArith_base.Qmake 1000 1));
   CF_CMSCoupon (sample_CMSCoupon (QArith_base.Qmake 900 1))].

(** * Properties *)

Section Properties.
Context `{Sv : Services}.

Local Abbreviation Leg := (list CashFlow).

Local Notation "x <- m ;; k" := (bind m (fun x => k))
  (at level 100, m at next level, right associativity, only parsing).
Local Notation "m ;;; k" := (bind m (fun _ => k))
  (at level 100, right associativity, only parsing).

(** ** The run monad *)

Lemma bind_Ok {A B} (t : list Event) (a : A) (f : A -> M B) :
  bind (t, Ok a) f = (t ++ (f a).1, (f a).2).
Proof. unfold bind. by destruct (f a). Qed.

(** ** The broadcaster *)

Lemma get_Ok (v : list Real) (i : nat) (d : Real) : get v i d = Ok (resolve v i d).
Proof.
  unfold get, resolve.
  destruct v as [|x v]; [reflexivity|].
  cbn [vec_empty].
  destruct (Nat.ltb_spec i (length (x :: v))) as [Hlt|Hge].
  - unfold vec_at.
    destruct (lookup_lt_is_Some_2 (x :: v) i Hlt) as [y ->]. reflexivity.
  - unfold vec_back.
    rewrite (lookup_ge_None_2 (x :: v) i Hge).
    by destruct (last (x :: v)) eqn:E; [|apply last_None in E].
Qed.

(** The bounded lookup the fixed-rate builder writes out by hand. *)
Lemma inline_lookup_Ok (v : list Real) (i : nat) (d : Real) :
  vec_empty v = false ->
  (if i <? length v then vec_at v i else vec_back v) = Ok (resolve v i d).
Proof.
  intros Hv. rewrite <- (get_Ok v i d). unfold get. by rewrite Hv.
Qed.

Lemma vec_at_0_Ok (v : list Real) (d : Real) :
  vec_empty v = false -> vec_at v 0 = Ok (resolve v 0 d).
Proof. by destruct v. Qed.

(** ** The period loop *)

Lemma last_cons_shift {A} (d : A) (l : list A) (e : A) :
  List.last (d :: l) e = List.last l d.
Proof.
  revert d e. induction l as [|x l IH]; intros d e; [done|].
  change (List.last (d :: x :: l) e) with (List.last (x :: l) e).
  by rewrite (IH x e), (IH x d).
Qed.

(** A loop whose body, at source index [i], reads [date(i)], builds the
    coupon [mk i (end, date(i))] and appends it, walks the dates [mid] and
    leaves [end] on the last of them. *)
Lemma for_steps_periods (s : Schedule)
    (body : nat -> Date * Date * Leg -> M (Date * Date * Leg))
    (mk : nat -> Date * Date -> CashFlow) (mid : list Date) :
  forall (i : nat) (start e : Date) (leg : Leg),
    (forall k d, mid !! k = Some d -> dates s !! (i + k) = Some d) ->
    (forall k st e' leg' d,
        k < length mid -> dates s !! (i + k) = Some d ->
        runs (body (i + k) (st, e', leg'))
          [Constructed (mk (i + k) (e', d))]
          (e', d, leg' ++ [mk (i + k) (e', d)])) ->
    runs (for_steps (length mid) i body (start, e, leg))
      (Constructed <$> imap (fun k => mk (i + k)) (zip (e :: mid) mid))
      (List.last (removelast (e :: mid)) start, List.last mid e,
       leg ++ imap (fun k => mk (i + k)) (zip (e :: mid) mid)).
Proof.
  unfold runs.
  induction mid as [|d mid IH]; intros i start e leg Hd Hbody.
  - cbn. by rewrite app_nil_r.
  - specialize (Hbody 0 start e leg d) as H0.
    rewrite Nat.add_0_r in H0.
    specialize (H0 ltac:(cbn; lia) ltac:(rewrite <- (Nat.add_0_r i); by apply Hd)).
    specialize (IH (S i) e d (leg ++ [mk i (e, d)])) as IH'.
    cbn [length for_steps]. rewrite H0, bind_Ok, IH'; cycle 1.
    { intros k d' Hk. replace (S i + k) with (i + S k) by lia. by apply Hd. }
    { intros k st e' leg' d' Hk Hd'. replace (S i + k) with (i + S k) in * by lia.
      apply Hbody; [cbn; lia | done]. }
    cbn [fst snd].
    change (zip (e :: d :: mid) (d :: mid)) with ((e, d) :: zip (d :: mid) mid).
    rewrite imap_cons, Nat.add_0_r.
    assert (Hext : imap ((fun k => mk (i + k)) ∘ S) (zip (d :: mid) mid)
                   = imap (fun k => mk (S i + k)) (zip (d :: mid) mid)).
    { apply imap_ext. intros k x _. cbn. f_equal. lia. }
    rewrite Hext. cbn [fmap list_fmap app]. f_equal.
    rewrite <- app_assoc, last_cons_shift.
    change (removelast (e :: d :: mid)) with (e :: removelast (d :: mid)).
    by rewrite last_cons_shift.
Qed.

Lemma periods_snoc (d : Date) (mid : list Date) (dl : Date) :
  zip (d :: mid ++ [dl]) (mid ++ [dl])
  = zip (d :: mid) mid ++ [(List.last mid d, dl)].
Proof.
  revert d. induction mid as [|m mid IH]; intros d; [done|].
  cbn [app zip zip_with]. cbn [zip] in IH. rewrite IH.
  cbn [app]. by rewrite last_cons_shift.
Qed.

Lemma length_periods_mid (d : Date) (mid : list Date) :
  length (zip (d :: mid) mid) = length mid.
Proof. rewrite length_zip. cbn [length]. lia. Qed.

(** ** Successful runs, step by step *)

Lemma runs_ret {A} (a : A) : runs (ret a) [] a.
Proof. reflexivity. Qed.

Lemma runs_bind {A B} (m : M A) (f : A -> M B) t1 a t2 b :
  runs m t1 a -> runs (f a) t2 b -> runs (bind m f) (t1 ++ t2) b.
Proof. unfold runs. intros -> H. unfold bind. by rewrite H. Qed.

Lemma runs_lift {A} (r : result A) (a : A) : r = Ok a -> runs (lift r) [] a.
Proof. by intros ->. Qed.

Lemma runs_new (cf : CashFlow) : runs (new cf) [Constructed cf] cf.
Proof. reflexivity. Qed.

Lemma runs_tell (e : Event) : runs (tell e) [e] tt.
Proof. reflexivity. Qed.

Lemma runs_QL_REQUIRE (c : bool) msg : c = true -> runs (QL_REQUIRE c msg) [] tt.
Proof. by intros ->. Qed.

Lemma runs_eq {A} (m : M A) t x t' x' :
  runs m t x -> t = t' -> x = x' -> runs m t' x'.
Proof. by intros H <- <-. Qed.

Lemma date_Ok (s : Schedule) (i : nat) (d : Date) :
  dates s !! i = Some d -> date s i = Ok d.
Proof. unfold date. by intros ->. Qed.

Lemma isRegular_Ok (s : Schedule) (j : nat) (r : bool) :
  isRegular_ s !! j = Some r -> isRegular s (S j) = Ok r.
Proof. unfold isRegular. by intros ->. Qed.

(** The two shapes of a well-formed schedule: one period, or a first
    period, some middle periods and a last period. *)
Lemma well_formed_cases (s : Schedule) :
  well_formed s = true ->
  (exists d0 d1 r0, dates s = [d0; d1] /\ isRegular_ s = [r0])
  \/ (exists d0 d1 mid dl r0 rl,
        dates s = d0 :: d1 :: mid ++ [dl]
        /\ isRegular_ s !! 0 = Some r0
        /\ isRegular_ s !! S (length mid) = Some rl).
Proof.
  unfold well_formed, size.
  rewrite andb_true_iff, Nat.leb_le, Nat.eqb_eq. intros [Hlen Hflags].
  destruct (dates s) as [|d0 [|d1 rest]] eqn:Hds; cbn [length] in *; try lia.
  destruct rest as [|dl mid _] using rev_ind.
  - left. destruct (isRegular_ s) as [|r0 [|]]; cbn in Hflags; try lia.
    by exists d0, d1, r0.
  - right. rewrite length_app in Hflags. cbn [length] in Hflags.
    destruct (lookup_lt_is_Some_2 (isRegular_ s) 0) as [r0 Hr0]; [lia|].
    destruct (lookup_lt_is_Some_2 (isRegular_ s) (S (length mid))) as [rl Hrl]; [lia|].
    by exists d0, d1, mid, dl, r0, rl.
Qed.

(** ** The attachment loop *)

Lemma for_steps_attach (vol : VolatilityHandle) (rest : list CashFlow) :
  forall done_ : list CashFlow,
    Forall (fun cf => is_CMSCoupon cf = true) rest ->
    runs (for_steps (length rest) (length done_)
            (fun i leg =>
               cf <- lift (vec_at leg i) ;;
               match dynamic_pointer_cast_CMSCoupon cf with
               | Some cmsCoupon =>
                   tell (VolatilitySet i vol) ;;;
                   ret (<[i := CF_CMSCoupon (setSwaptionVolatility cmsCoupon vol)]> leg)
               | None => QL_FAIL "unexpected error when casting to CMSCoupon"
               end)
            (done_ ++ rest))
      ((fun i => VolatilitySet i vol) <$> seq (length done_) (length rest))
      (done_ ++ (attached vol <$> rest)).
Proof.
  induction rest as [|cf rest IH]; intros done_ Hall.
  - apply runs_ret.
  - apply Forall_cons in Hall as [Hcf Hall].
    destruct cf as [c|c]; [discriminate|].
    cbn [length for_steps seq fmap list_fmap].
    eapply runs_eq.
    + eapply runs_bind.
      * eapply runs_bind.
        { apply runs_lift. unfold vec_at.
          by rewrite (list_lookup_middle done_ rest (CF_CMSCoupon c) _ eq_refl). }
        cbn [dynamic_pointer_cast_CMSCoupon].
        eapply runs_bind; [apply runs_tell | apply runs_ret].
      * cbv beta.
        replace (<[length done_ := CF_CMSCoupon (setSwaptionVolatility c vol)]>
                   (done_ ++ CF_CMSCoupon c :: rest))
          with ((done_ ++ [CF_CMSCoupon (setSwaptionVolatility c vol)]) ++ rest).
        2:{ rewrite <- (Nat.add_0_r (length done_)) at 1.
            by rewrite insert_app_r, <- app_assoc. }
        replace (S (length done_))
          with (length (done_ ++ [CF_CMSCoupon (setSwaptionVolatility c vol)]))
          by (rewrite length_app; cbn; lia).
        by apply IH.
    + rewrite length_app. cbn [length app]. by rewrite Nat.add_1_r.
    + by rewrite <- app_assoc.
Qed.

Lemma runs_attach_volatility (vol : VolatilityHandle) (leg : Leg) :
  Forall (fun cf => is_CMSCoupon cf = true) leg ->
  runs (attach_volatility vol leg)
    ((fun i => VolatilitySet i vol) <$> seq 0 (length leg))
    (attached vol <$> leg).
Proof.
  intros Hall. unfold attach_volatility, for_range. rewrite Nat.sub_0_r.
  exact (for_steps_attach vol leg [] Hall).
Qed.

(** ** Closed form of the runs *)

Lemma period_leg_one b a att d0 d1 :
  dates (arg_schedule a) = [d0; d1] ->
  period_leg b a att = [period_coupon b a att d1 0 (d0, d1)].
Proof. unfold period_leg, periods. by intros ->. Qed.

Lemma period_leg_many b a att d0 d1 mid dl :
  dates (arg_schedule a) = d0 :: d1 :: mid ++ [dl] ->
  period_leg b a att
  = period_coupon b a att dl 0 (d0, d1)
    :: imap (fun k => period_coupon b a att dl (S k)) (zip (d1 :: mid) mid)
    ++ [period_coupon b a att dl (S (length mid)) (List.last mid d1, dl)].
Proof.
  unfold period_leg, periods. intros ->.
  change (d0 :: d1 :: mid ++ [dl]) with ((d0 :: d1 :: mid) ++ [dl]) at 1.
  rewrite last_snoc.
  cbn [tail]. change (zip (d0 :: d1 :: mid ++ [dl]) (d1 :: mid ++ [dl]))
    with ((d0, d1) :: zip (d1 :: mid ++ [dl]) (mid ++ [dl])).
  rewrite periods_snoc, imap_cons, imap_app. cbn [imap].
  by rewrite length_periods_mid, Nat.add_0_r.
Qed.

Lemma reference_period_middle b a j start end_ :
  j <> 0 -> j <> size (arg_schedule a) - 2 ->
  reference_period b a j start end_ = (start, end_).
Proof.
  intros H0 HN. unfold reference_period.
  by rewrite (proj2 (Nat.eqb_neq _ _) H0), (proj2 (Nat.eqb_neq _ _) HN).
Qed.

Ltac run_lift :=
  apply runs_lift;
  first [ apply get_Ok
        | apply (fun v i => inline_lookup_Ok v i Null_Real); assumption
        | apply (fun v => vec_at_0_Ok v Null_Real); assumption
        | apply isRegular_Ok; eassumption
        | apply date_Ok; eassumption ].

Ltac run_atom :=
  first [ apply runs_ret | apply runs_new | apply runs_tell
        | apply runs_QL_REQUIRE; assumption
        | run_lift ].

Ltac run_steps :=
  cbv beta iota;
  lazymatch goal with
  | |- runs (bind _ _) _ _ =>
      first [ eapply runs_bind; [ solve [run_steps] | run_steps ] | idtac ]
  | |- runs _ _ _ => try run_atom
  end.

Ltac run_finish :=
  cbn [push_back app fmap list_fmap];
  rewrite ?fmap_app, ?app_nil_r, <- ?app_assoc;
  cbn [app fmap list_fmap]; try reflexivity.

Lemma build_run_FixedRate (a : Args) :
  accepts FixedRate a = true ->
  runs (build FixedRate a) (run_trace FixedRate a) (period_leg FixedRate a false).
Proof.
  unfold accepts, build, run_trace. cbn [is_CMS_builder].
  rewrite !andb_true_iff, !negb_true_iff, app_nil_r.
  intros [[Hwf Hnoms] [Hrates Hfp]].
  assert (Hnoms' : negb (vec_empty (arg_nominals a)) = true) by by rewrite Hnoms.
  assert (Hrates' : negb (vec_empty (arg_couponRates a)) = true) by by rewrite Hrates.
  destruct (well_formed_cases _ Hwf)
    as [(d0 & d1 & r0 & Hds & Hfl)|(d0 & d1 & mid & dl & r0 & rl & Hds & Hr0 & Hrl)].
  - rewrite (period_leg_one _ _ _ _ _ Hds).
    assert (H0 : dates (arg_schedule a) !! 0 = Some d0) by by rewrite Hds.
    assert (H1 : dates (arg_schedule a) !! 1 = Some d1) by by rewrite Hds.
    assert (Hr0 : isRegular_ (arg_schedule a) !! 0 = Some r0) by by rewrite Hfl.
    unfold period_coupon, reference_period, payment_date, period_regular in *.
    rewrite Hr0 in *.
    unfold FixedRateCouponVector, for_range, size. rewrite Hds.
    cbn [length Nat.sub Nat.ltb Nat.leb for_steps Nat.eqb]. cbv zeta.
    destruct r0; cbn [negb orb andb] in *;
      (eapply runs_eq; [run_steps | run_finish ..]);
      by destruct (DayCounter_empty _).
  - rewrite (period_leg_many _ _ _ _ _ _ _ Hds).
    assert (Hsz : size (arg_schedule a) = S (S (S (length mid)))).
    { unfold size. rewrite Hds. cbn [length]. rewrite length_app. cbn. lia. }
    assert (H0 : dates (arg_schedule a) !! 0 = Some d0) by by rewrite Hds.
    assert (H1 : dates (arg_schedule a) !! 1 = Some d1) by by rewrite Hds.
    assert (Hmid : forall k d, mid !! k = Some d ->
                     dates (arg_schedule a) !! (2 + k) = Some d).
    { intros k d Hk. rewrite Hds.
      exact (lookup_app_l_Some (d0 :: d1 :: mid) [dl] (2 + k) d Hk). }
    assert (HN : dates (arg_schedule a) !! S (S (length mid)) = Some dl).
    { rewrite Hds. exact (list_lookup_middle (d0 :: d1 :: mid) [] dl _ eq_refl). }
    assert (Hlt : (2 <? S (S (S (length mid)))) = true) by reflexivity.
    unfold period_coupon at 1 3 4 6.
    unfold reference_period, payment_date, period_regular in *.
    rewrite Hr0 in *.
    unfold FixedRateCouponVector, for_range. rewrite !Hsz, Hlt.
    cbn [Nat.sub Nat.eqb]. cbv zeta. rewrite Nat.eqb_refl, Hrl, Nat.sub_0_r.
    destruct r0, rl; cbn [negb orb andb] in *.
    all: eapply runs_eq;
      [ run_steps; eapply runs_bind;
        [ apply (for_steps_periods (arg_schedule a) _
                   (fun i => period_coupon FixedRate a false dl (i - 1)) mid 2);
          [ exact Hmid
          | intros k st e' leg' d Hk Hd; change (2 + k - 1) with (S k);
            eapply runs_eq;
            [ run_steps
            | unfold period_coupon;
              rewrite reference_period_middle by (rewrite ?Hsz; cbn; lia);
              run_finish .. ] ]
        | run_steps ]
      | run_finish .. ].
    all: by destruct (DayCounter_empty _).
Qed.

Lemma is_CMSCoupon_period_coupon b a att last_ j p :
  is_CMS_builder b = true -> is_CMSCoupon (period_coupon b a att last_ j p) = true.
Proof.
  intros Hb. unfold period_coupon. destruct p as [st en].
  destruct (reference_period b a j st en). by destruct b.
Qed.

Lemma attached_period_coupon b a last_ j p :
  is_CMS_builder b = true ->
  attached (arg_vol a) (period_coupon b a false last_ j p)
  = period_coupon b a true last_ j p.
Proof.
  intros Hb. unfold period_coupon. destruct p as [st en].
  destruct (reference_period b a j st en). by destruct b.
Qed.

Lemma attached_period_coupons b a last_ (f : nat -> nat) (l : list (Date * Date)) :
  is_CMS_builder b = true ->
  attached (arg_vol a) <$> imap (fun k => period_coupon b a false last_ (f k)) l
  = imap (fun k => period_coupon b a true last_ (f k)) l.
Proof.
  intros Hb. rewrite fmap_imap. apply imap_ext. intros k p _.
  by apply attached_period_coupon.
Qed.

Lemma Forall_imap_intro {A B} (P : B -> Prop) (f : nat -> A -> B) (l : list A) :
  (forall i x, P (f i x)) -> Forall P (imap f l).
Proof.
  intros HP. apply Forall_lookup. intros i y.
  rewrite list_lookup_imap. destruct (l !! i); [|done]. cbn. by intros [= <-].
Qed.

Lemma build_run_CMS (b : Builder) (a : Args) :
  is_CMS_builder b = true ->
  accepts b a = true ->
  runs (build b a) (run_trace b a) (period_leg b a true).
Proof.
  intros Hb. unfold accepts, run_trace. rewrite Hb.
  rewrite !andb_true_iff, !negb_true_iff.
  intros [[Hwf Hnoms] _].
  assert (Hnoms' : negb (vec_empty (arg_nominals a)) = true) by by rewrite Hnoms.
  destruct (well_formed_cases _ Hwf)
    as [(d0 & d1 & r0 & Hds & Hfl)|(d0 & d1 & mid & dl & r0 & rl & Hds & Hr0 & Hrl)].
  - rewrite !(period_leg_one _ _ _ _ _ Hds).
    assert (H0 : dates (arg_schedule a) !! 0 = Some d0) by by rewrite Hds.
    assert (H1 : dates (arg_schedule a) !! 1 = Some d1) by by rewrite Hds.
    assert (Hr0 : isRegular_ (arg_schedule a) !! 0 = Some r0) by by rewrite Hfl.
    unfold period_coupon, reference_period, payment_date, period_regular in *.
    rewrite Hr0 in *.
    destruct b; [discriminate|..];
      unfold build, CMSCouponVector, CMSZeroCouponVector,
        CMSInArrearsCouponVector, for_range, size; rewrite Hds;
      cbn [length Nat.sub Nat.ltb Nat.leb for_steps Nat.eqb]; cbv zeta;
      destruct r0.
    all: eapply runs_eq;
      [ run_steps; eapply runs_bind;
        [ apply runs_attach_volatility; repeat constructor | apply runs_ret ]
      | run_finish .. ].
  - rewrite !(period_leg_many _ _ _ _ _ _ _ Hds).
    assert (Hsz : size (arg_schedule a) = S (S (S (length mid)))).
    { unfold size. rewrite Hds. cbn [length]. rewrite length_app. cbn. lia. }
    assert (H0 : dates (arg_schedule a) !! 0 = Some d0) by by rewrite Hds.
    assert (H1 : dates (arg_schedule a) !! 1 = Some d1) by by rewrite Hds.
    assert (Hmid : forall k d, mid !! k = Some d ->
                     dates (arg_schedule a) !! (2 + k) = Some d).
    { intros k d Hk. rewrite Hds.
      exact (lookup_app_l_Some (d0 :: d1 :: mid) [dl] (2 + k) d Hk). }
    assert (HN : dates (arg_schedule a) !! S (S (length mid)) = Some dl).
    { rewrite Hds. exact (list_lookup_middle (d0 :: d1 :: mid) [] dl _ eq_refl). }
    assert (Hlt : (2 <? S (S (S (length mid)))) = true) by reflexivity.
    unfold period_coupon at 1 3 4 6.
    unfold reference_period, payment_date, period_regular in *.
    rewrite Hr0 in *.
    destruct b; [discriminate|..];
      unfold build, CMSCouponVector, CMSZeroCouponVector,
        CMSInArrearsCouponVector, for_range; rewrite !Hsz, Hlt;
      cbn [Nat.sub Nat.eqb]; cbv zeta; rewrite Nat.eqb_refl, Hrl, Nat.sub_0_r;
      destruct r0, rl.
    all: eapply runs_eq;
      [ run_steps; eapply runs_bind;
        [ lazymatch goal with
          | Hb' : is_CMS_builder ?bb = true |- _ =>
              apply (for_steps_periods (arg_schedule a) _
                       (fun i => period_coupon bb a false dl (i - 1)) mid 2)
          end;
          [ exact Hmid
          | intros k st e' leg' d Hk Hd; change (2 + k - 1) with (S k);
            eapply runs_eq;
            [ run_steps
            | unfold period_coupon, payment_date;
              rewrite reference_period_middle by (rewrite ?Hsz; cbn; lia);
              run_finish .. ] ]
        | run_steps; eapply runs_bind;
          [ apply runs_attach_volatility | apply runs_ret ] ]
      | run_finish .. ].
    all: try lazymatch goal with
         | |- Forall _ _ =>
             unfold push_back; rewrite !Forall_app; repeat split;
             try (apply Forall_imap_intro; intros;
                  by apply is_CMSCoupon_period_coupon);
             by repeat constructor
         end.
    all: unfold push_back; cbn [app length];
      rewrite ?length_app, ?length_imap, ?length_periods_mid,
        ?(attached_period_coupons _ a dl (fun k => 2 + k - 1)) by done;
      cbn [length Nat.add]; rewrite ?Nat.add_1_r; try reflexivity.
Qed.

Lemma build_run (b : Builder) (a : Args) :
  accepts b a = true ->
  runs (build b a) (run_trace b a) (period_leg b a (is_CMS_builder b)).
Proof.
  destruct b; first [apply build_run_FixedRate | by apply build_run_CMS].
Qed.

(** ** Reading the closed form *)

Lemma well_formed_last (s : Schedule) :
  well_formed s = true -> exists last_, last (dates s) = Some last_.
Proof.
  intros Hwf. destruct (last (dates s)) as [d|] eqn:E; [by exists d|].
  apply last_None in E. unfold well_formed, size in Hwf. rewrite E in Hwf.
  discriminate.
Qed.

Lemma length_periods (s : Schedule) : length (periods s) = size s - 1.
Proof.
  unfold periods, size. rewrite length_zip.
  destruct (dates s); cbn [tail length]; lia.
Qed.

Lemma periods_lookup (s : Schedule) (j : nat) (p : Date * Date) :
  periods s !! j = Some p <->
  dates s !! j = Some p.1 /\ dates s !! S j = Some p.2.
Proof.
  unfold periods. destruct p as [st en].
  rewrite lookup_zip_Some, lookup_tail. reflexivity.
Qed.

Lemma length_period_leg b a att :
  well_formed (arg_schedule a) = true ->
  length (period_leg b a att) = size (arg_schedule a) - 1.
Proof.
  intros Hwf. unfold period_leg.
  destruct (well_formed_last _ Hwf) as [dl ->].
  by rewrite length_imap, length_periods.
Qed.

Lemma period_leg_lookup b a att (j : nat) (cf : CashFlow) :
  period_leg b a att !! j = Some cf <->
  exists st en last_,
    dates (arg_schedule a) !! j = Some st
    /\ dates (arg_schedule a) !! S j = Some en
    /\ last (dates (arg_schedule a)) = Some last_
    /\ cf = period_coupon b a att last_ j (st, en).
Proof.
  unfold period_leg. destruct (last (dates (arg_schedule a))) as [dl|] eqn:El.
  - rewrite list_lookup_imap_Some. split.
    + intros ([st en] & Hp & ->). apply periods_lookup in Hp as [Hst Hen].
      by exists st, en, dl.
    + intros (st & en & dl' & Hst & Hen & [= <-] & ->).
      exists (st, en). split; [by apply periods_lookup|done].
  - split; [done|]. by intros (? & ? & ? & _ & _ & [=] & _).
Qed.

(** ** Traces *)

Lemma constructed_app (t1 t2 : list Event) :
  constructed (t1 ++ t2) = constructed t1 ++ constructed t2.
Proof.
  induction t1 as [|[cf|k vol] t1 IH]; cbn [app constructed]; by rewrite ?IH.
Qed.

Lemma constructed_Constructed (l : list CashFlow) :
  constructed (Constructed <$> l) = l.
Proof.
  induction l as [|cf l IH]; [done|].
  rewrite fmap_cons. cbn [constructed]. by rewrite IH.
Qed.

Lemma constructed_VolatilitySet (vol : VolatilityHandle) (l : list nat) :
  constructed ((fun i => VolatilitySet i vol) <$> l) = [].
Proof.
  induction l as [|k l IH]; [done|]. rewrite fmap_cons. by cbn [constructed].
Qed.

Lemma constructed_run_trace b a :
  constructed (run_trace b a) = period_leg b a false.
Proof.
  unfold run_trace. rewrite constructed_app, constructed_Constructed.
  destruct (is_CMS_builder b); [|by rewrite app_nil_r].
  by rewrite constructed_VolatilitySet, app_nil_r.
Qed.

Lemma volatility_sets_app (t1 t2 : list Event) (i : nat) :
  volatility_sets (t1 ++ t2) i = volatility_sets t1 i ++ volatility_sets t2 i.
Proof.
  induction t1 as [|[cf|k vol] t1 IH]; cbn [app volatility_sets]; [done..|].
  destruct (k =? i); by rewrite IH.
Qed.

Lemma volatility_sets_Constructed (l : list CashFlow) (i : nat) :
  volatility_sets (Constructed <$> l) i = [].
Proof.
  induction l as [|cf l IH]; [done|]. rewrite fmap_cons. by cbn [volatility_sets].
Qed.

Lemma volatility_sets_seq (vol : VolatilityHandle) (n : nat) :
  forall lo i,
    volatility_sets ((fun k => VolatilitySet k vol) <$> seq lo n) i
    = if decide (lo <= i < lo + n) then [vol] else [].
Proof.
  induction n as [|n IH]; intros lo i.
  - cbn. case_decide; [lia|done].
  - cbn [seq]. rewrite fmap_cons. cbn [volatility_sets]. rewrite IH.
    destruct (Nat.eqb_spec lo i); repeat case_decide; try lia; done.
Qed.

Lemma volatility_sets_run_trace b a (j : nat) :
  is_CMS_builder b = true ->
  j < size (arg_schedule a) - 1 ->
  volatility_sets (run_trace b a) j = [arg_vol a].
Proof.
  intros Hb Hj. unfold run_trace.
  rewrite Hb, volatility_sets_app, volatility_sets_Constructed, volatility_sets_seq.
  case_decide; [done|lia].
Qed.

(** ** Runs that cannot hit [QL_FAIL] *)

Lemma wp_ret {A} (a : A) (Q : A -> Prop) : Q a -> wp (ret a) Q.
Proof. done. Qed.

Lemma wp_bind {A B} (m : M A) (f : A -> M B) (Q : B -> Prop) :
  wp m (fun a => wp (f a) Q) -> wp (bind m f) Q.
Proof.
  unfold wp, bind. destruct m as [t [a|e]]; cbn [snd]; [|done].
  by destruct (f a).
Qed.

Lemma wp_mono {A} (m : M A) (P Q : A -> Prop) :
  (forall a, P a -> Q a) -> wp m P -> wp m Q.
Proof. unfold wp. destruct (m.2); auto. Qed.

Lemma wp_runs {A} (m : M A) t a (Q : A -> Prop) : runs m t a -> Q a -> wp m Q.
Proof. unfold runs, wp. by intros ->. Qed.

Lemma wp_QL_REQUIRE (c : bool) msg (Q : unit -> Prop) :
  (c = true -> Q tt) -> wp (QL_REQUIRE c msg) Q.
Proof. destruct c; [by intros H; apply H|done]. Qed.

Lemma wp_date (s : Schedule) (i : nat) (Q : Date -> Prop) :
  (forall d, Q d) -> wp (lift (date s i)) Q.
Proof.
  intros HQ. unfold wp, date, lift. cbn [snd].
  destruct (dates s !! i); [apply HQ|reflexivity].
Qed.

Lemma wp_isRegular (s : Schedule) (i : nat) (Q : bool -> Prop) :
  (forall r, Q r) -> wp (lift (isRegular s i)) Q.
Proof.
  intros HQ. unfold wp, isRegular, lift. cbn [snd].
  destruct i as [|k]; [reflexivity|].
  destruct (isRegular_ s !! k); [apply HQ|reflexivity].
Qed.

Lemma wp_get (v : list Real) (i : nat) (d : Real) (Q : Real -> Prop) :
  Q (resolve v i d) -> wp (lift (get v i d)) Q.
Proof. intros HQ. by rewrite get_Ok. Qed.

Lemma wp_new (cf : CashFlow) (Q : CashFlow -> Prop) : Q cf -> wp (new cf) Q.
Proof. done. Qed.

Lemma wp_for_steps {St} (Inv : St -> Prop) (body : nat -> St -> M St) (n : nat) :
  forall (i : nat) (s : St),
    (forall k s', Inv s' -> wp (body k s') Inv) ->
    Inv s -> wp (for_steps n i body s) Inv.
Proof.
  induction n as [|n IH]; intros i s Hbody Hs; [done|].
  cbn [for_steps]. apply wp_bind.
  eapply wp_mono; [|by apply Hbody]. intros s' Hs'. by apply IH.
Qed.

Lemma wp_attach_volatility (vol : VolatilityHandle) (leg : Leg)
    (Q : Leg -> Prop) :
  Forall (fun cf => is_CMSCoupon cf = true) leg ->
  (forall leg', Q leg') ->
  wp (attach_volatility vol leg) Q.
Proof.
  intros Hall HQ. eapply wp_runs; [by apply runs_attach_volatility|apply HQ].
Qed.

Ltac wp_steps :=
  cbv beta iota zeta;
  lazymatch goal with
  | |- wp (bind _ _) _ => apply wp_bind; wp_steps
  | |- wp (ret _) _ => apply wp_ret; wp_steps
  | |- wp (new _) _ => apply wp_new; wp_steps
  | |- wp (QL_REQUIRE _ _) _ => apply wp_QL_REQUIRE; intros _; wp_steps
  | |- wp (lift (date _ _)) _ => apply wp_date; intros ?; wp_steps
  | |- wp (lift (isRegular _ _)) _ => apply wp_isRegular; intros []; wp_steps
  | |- wp (lift (get _ _ _)) _ => apply wp_get; wp_steps
  | |- wp (if ?c then _ else _) _ => destruct c; wp_steps
  | |- wp (attach_volatility _ _) _ =>
      apply wp_attach_volatility; [ | intros ?; wp_steps ]
  | |- wp (for_range _ _ _ _) _ =>
      unfold for_range;
      eapply wp_mono;
      [ | apply (wp_for_steps
                   (fun st : Date * Date * Leg =>
                      Forall (fun cf => is_CMSCoupon cf = true) st.2));
          [ intros ? [[? ?] ?] ?; wp_steps | ] ];
      [ wp_steps | .. ]
  | |- forall st : Date * Date * Leg, _ => intros [[? ?] ?]; wp_steps
  | |- _ -> _ => intros ?; wp_steps
  | |- _ => idtac
  end.

Lemma build_CMS_safe (b : Builder) (a : Args) :
  is_CMS_builder b = true -> wp (build b a) (fun _ => True).
Proof.
  intros Hb.
  destruct b; [discriminate|..];
    unfold build, CMSCouponVector, CMSZeroCouponVector, CMSInArrearsCouponVector.
  all: wp_steps.
  all: cbn [snd] in *; unfold push_back; rewrite ?Forall_app;
    repeat split; try assumption; by repeat constructor.
Qed.

(** ** The fields of a period's coupon *)

Lemma period_coupon_accrual b a att last_ j st en :
  accrualStartDate (period_coupon b a att last_ j (st, en)) = st
  /\ accrualEndDate (period_coupon b a att last_ j (st, en)) = en.
Proof.
  unfold period_coupon. destruct (reference_period b a j st en). by destruct b.
Qed.

Lemma period_coupon_reference b a att last_ j st en :
  referencePeriodStart (period_coupon b a att last_ j (st, en))
  = (reference_period b a j st en).1
  /\ referencePeriodEnd (period_coupon b a att last_ j (st, en))
     = (reference_period b a j st en).2.
Proof.
  unfold period_coupon. destruct (reference_period b a j st en). by destruct b.
Qed.

Lemma period_coupon_payment b a att last_ j st en :
  CashFlow_date (period_coupon b a att last_ j (st, en))
  = payment_date b a en last_.
Proof.
  unfold period_coupon. destruct (reference_period b a j st en). by destruct b.
Qed.

Lemma period_coupon_nominal b a att last_ j st en :
  Coupon_nominal (period_coupon b a att last_ j (st, en))
  = resolve (arg_nominals a) j Null_Real.
Proof.
  unfold period_coupon. destruct (reference_period b a j st en). by destruct b.
Qed.

Lemma accepts_well_formed b a :
  accepts b a = true -> well_formed (arg_schedule a) = true.
Proof. unfold accepts. rewrite !andb_true_iff. by intros [[? _] _]. Qed.

Lemma well_formed_size (s : Schedule) :
  well_formed s = true -> 2 <= size s /\ length (isRegular_ s) = size s - 1.
Proof.
  unfold well_formed. by rewrite andb_true_iff, Nat.leb_le, Nat.eqb_eq.
Qed.

Lemma isRegular_period_regular (s : Schedule) (j : nat) :
  j < length (isRegular_ s) -> isRegular s (S j) = Ok (period_regular s j).
Proof.
  intros Hj. unfold isRegular, period_regular.
  by destruct (lookup_lt_is_Some_2 _ _ Hj) as [r ->].
Qed.

Lemma last_date (s : Schedule) (d : Date) :
  last (dates s) = Some d -> date s (size s - 1) = Ok d.
Proof.
  intros Hl. apply date_Ok. rewrite last_lookup in Hl.
  unfold size. by rewrite Nat.sub_1_r.
Qed.

(** Every period of an accepted call, with its dates and its coupon. *)
Lemma build_periods (b : Builder) (a : Args) :
  accepts b a = true ->
  exists t leg last_,
    build b a = (t, Ok leg)
    /\ constructed t = period_leg b a false
    /\ last (dates (arg_schedule a)) = Some last_
    /\ length leg = size (arg_schedule a) - 1
    /\ (forall j, j < size (arg_schedule a) - 1 ->
        exists st en,
          dates (arg_schedule a) !! j = Some st
          /\ dates (arg_schedule a) !! S j = Some en
          /\ leg !! j
             = Some (period_coupon b a (is_CMS_builder b) last_ j (st, en)))
    /\ (forall j cf, leg !! j = Some cf ->
        j < size (arg_schedule a) - 1
        /\ exists st en,
             dates (arg_schedule a) !! j = Some st
             /\ dates (arg_schedule a) !! S j = Some en
             /\ cf = period_coupon b a (is_CMS_builder b) last_ j (st, en)).
Proof.
  intros Hacc. pose proof (accepts_well_formed _ _ Hacc) as Hwf.
  destruct (well_formed_last _ Hwf) as [dl Hdl].
  exists (run_trace b a), (period_leg b a (is_CMS_builder b)), dl.
  pose proof (length_period_leg b a (is_CMS_builder b) Hwf) as Hlen.
  split; [by apply build_run|]. split; [apply constructed_run_trace|].
  split; [done|]. split; [done|]. split.
  - intros j Hj.
    assert (Hlt : j < length (period_leg b a (is_CMS_builder b))) by lia.
    destruct (lookup_lt_is_Some_2 _ _ Hlt) as [cf Hcf].
    pose proof Hcf as Hcf'. apply period_leg_lookup in Hcf'
      as (st & en & dl' & Hst & Hen & Hdl' & ->).
    exists st, en. rewrite Hdl in Hdl'. injection Hdl' as <-. done.
  - intros j cf Hcf. split.
    + apply lookup_lt_Some in Hcf. lia.
    + apply period_leg_lookup in Hcf as (st & en & dl' & Hst & Hen & Hdl' & ->).
      exists st, en. rewrite Hdl in Hdl'. injection Hdl' as <-. done.
Qed.

(** ** Rejected calls *)

Lemma missing_required_fails (b : Builder) (a : Args) :
  missing_required b a = true ->
  exists msg, build b a = ([], Err (Require_failed msg)).
Proof.
  unfold missing_required. intros Hmiss.
  destruct b; unfold build, FixedRateCouponVector, CMSCouponVector,
    CMSZeroCouponVector, CMSInArrearsCouponVector; cbv zeta.
  - destruct (vec_empty (arg_couponRates a)) eqn:Hr.
    + by eexists.
    + rewrite orb_false_r in Hmiss. rewrite Hmiss. by eexists.
  - rewrite orb_false_r in Hmiss. rewrite Hmiss. by eexists.
  - rewrite orb_false_r in Hmiss. rewrite Hmiss. by eexists.
  - rewrite orb_false_r in Hmiss. rewrite Hmiss. by eexists.
Qed.

Lemma day_count_conflict_fails (a : Args) :
  vec_empty (arg_couponRates a) = false ->
  vec_empty (arg_nominals a) = false ->
  well_formed (arg_schedule a) = true ->
  isRegular (arg_schedule a) 1 = Ok true ->
  DayCounter_empty (arg_firstPeriodDayCount a) = false ->
  DayCounter_eq (arg_firstPeriodDayCount a) (arg_dayCounter a) = false ->
  build FixedRate a
  = ([], Err (Require_failed
                "regular first coupon does not allow a first-period day count")).
Proof.
  intros Hrates Hnoms Hwf Hreg Hfp Hne.
  destruct (well_formed_size _ Hwf) as [HN _].
  destruct (lookup_lt_is_Some_2 (dates (arg_schedule a)) 0) as [d0 H0];
    [unfold size in HN; lia|].
  destruct (lookup_lt_is_Some_2 (dates (arg_schedule a)) 1) as [d1 H1];
    [unfold size in HN; lia|].
  unfold build, FixedRateCouponVector. cbv zeta.
  rewrite Hrates, Hnoms, (date_Ok _ _ _ H0), (date_Ok _ _ _ H1), Hreg.
  rewrite (vec_at_0_Ok _ Null_Real Hrates), (vec_at_0_Ok _ Null_Real Hnoms).
  rewrite Hfp, Hne. reflexivity.
Qed.

(** On a well-formed schedule, [accepts] is exactly the condition under
    which a builder returns a leg. *)
Lemma build_succeeds_iff_accepts (b : Builder) (a : Args) :
  well_formed (arg_schedule a) = true ->
  (exists t leg, build b a = (t, Ok leg)) <-> accepts b a = true.
Proof.
  intros Hwf. split.
  - intros (t & leg & Hrun).
    destruct (missing_required b a) eqn:Hmiss.
    { destruct (missing_required_fails b a Hmiss) as [msg Hfail]. congruence. }
    unfold missing_required in Hmiss. apply orb_false_iff in Hmiss as [Hnoms Hb].
    unfold accepts. rewrite Hwf, Hnoms. cbn [negb andb].
    destruct b; [|done..]. rewrite Hb. cbn [negb andb].
    destruct (well_formed_size _ Hwf) as [HN Hfl].
    pose proof (isRegular_period_regular (arg_schedule a) 0 ltac:(lia)) as Hreg.
    destruct (period_regular (arg_schedule a) 0); [|done].
    destruct (DayCounter_empty (arg_firstPeriodDayCount a)) eqn:Hfp; [done|].
    destruct (DayCounter_eq (arg_firstPeriodDayCount a) (arg_dayCounter a))
      eqn:Heq; [done|].
    pose proof (day_count_conflict_fails a Hb Hnoms Hwf Hreg Hfp Heq). congruence.
  - intros Hacc. eexists _, _. by apply build_run.
Qed.

(** * Properties of the design document *)

(** C2. [get] is total: for every array, index and default it returns a
    value and no error; the value is the default when the array is empty,
    the element at the index when the index is inside the array, and the
    last element otherwise. It agrees with the design's [resolve]. *)
Theorem get_broadcasts (v : list Real) (i : nat) (d : Real) :
  exists x,
    get v i d = Ok x
    /\ x = resolve v i d
    /\ (length v = 0 -> x = d)
    /\ (i < length v -> v !! i = Some x)
    /\ (0 < length v <= i -> v !! (length v - 1) = Some x).
Proof.
  exists (resolve v i d). split; [apply get_Ok|]. split; [done|].
  unfold resolve. destruct v as [|y v]; [repeat split; cbn; intros; lia || done|].
  split; [discriminate|]. split.
  - intros Hlt. by destruct (lookup_lt_is_Some_2 _ _ Hlt) as [x ->].
  - intros [_ Hge].
    rewrite (lookup_ge_None_2 _ _ Hge), Nat.sub_1_r, <- last_lookup.
    by destruct (last (y :: v)) eqn:E; [|apply last_None in E].
Qed.

(** C1. For a schedule of N >= 2 dates, every builder whose preconditions
    hold returns a leg of exactly N-1 coupons, having constructed exactly
    N-1 coupons. When N = 2 the single coupon spans the two dates and
    carries the first-period stub treatment (reference end = accrual end,
    reference start adjusted back from it when the period is irregular):
    the last-period branch has not run. *)
Theorem leg_has_one_coupon_per_period (b : Builder) (a : Args) :
  accepts b a = true ->
  exists t leg,
    build b a = (t, Ok leg)
    /\ 2 <= size (arg_schedule a)
    /\ length leg = size (arg_schedule a) - 1
    /\ length (constructed t) = size (arg_schedule a) - 1
    /\ (size (arg_schedule a) = 2 ->
        exists d0 d1 cf,
          dates (arg_schedule a) = [d0; d1]
          /\ leg = [cf]
          /\ accrualStartDate cf = d0
          /\ accrualEndDate cf = d1
          /\ referencePeriodEnd cf = d1
          /\ referencePeriodStart cf
             = if period_regular (arg_schedule a) 0 then d0
               else adjust (calendar (arg_schedule a))
                      (Date_minus d1 (tenor (arg_schedule a)))
                      (stub_convention b a)).
Proof.
  intros Hacc. pose proof (accepts_well_formed _ _ Hacc) as Hwf.
  destruct (well_formed_size _ Hwf) as [HN _].
  exists (run_trace b a), (period_leg b a (is_CMS_builder b)).
  split; [by apply build_run|]. split; [done|].
  split; [by apply length_period_leg|].
  split; [rewrite constructed_run_trace; by apply length_period_leg|].
  intros H2. unfold size in H2.
  destruct (dates (arg_schedule a)) as [|d0 [|d1 [|? ?]]] eqn:Hds; try discriminate.
  exists d0, d1, (period_coupon b a (is_CMS_builder b) d1 0 (d0, d1)).
  split; [done|]. split; [by apply period_leg_one|].
  destruct (period_coupon_accrual b a (is_CMS_builder b) d1 0 d0 d1) as [-> ->].
  destruct (period_coupon_reference b a (is_CMS_builder b) d1 0 d0 d1) as [-> ->].
  unfold reference_period. cbn [Nat.eqb].
  by destruct (period_regular (arg_schedule a) 0).
Qed.

(** C3. In every builder the coupon at position [j] of the leg is the
    coupon of period [j] (it accrues from [date(j)] to [date(j+1)]) and its
    nominal and rate parameters are what the broadcaster yields at index
    [j]: the rate for a fixed-rate coupon; gearing, spread, cap, floor and
    mean reversion for a CMS coupon. *)
Theorem period_parameters_use_period_index (b : Builder) (a : Args) :
  accepts b a = true ->
  exists t leg,
    build b a = (t, Ok leg)
    /\ forall j, j < size (arg_schedule a) - 1 ->
       exists cf,
         leg !! j = Some cf
         /\ date (arg_schedule a) j = Ok (accrualStartDate cf)
         /\ date (arg_schedule a) (S j) = Ok (accrualEndDate cf)
         /\ get (arg_nominals a) j Null_Real = Ok (Coupon_nominal cf)
         /\ match cf with
            | CF_FixedRateCoupon c =>
                b = FixedRate
                /\ get (arg_couponRates a) j Null_Real = Ok (frc_rate c)
            | CF_CMSCoupon c =>
                is_CMS_builder b = true
                /\ get (arg_gearings a) j Real_one = Ok (cms_gearing c)
                /\ get (arg_spreads a) j Real_zero = Ok (cms_spread c)
                /\ get (arg_caps a) j Null_Real = Ok (cms_cap c)
                /\ get (arg_floors a) j Null_Real = Ok (cms_floor c)
                /\ get (arg_meanReversions a) j Null_Real
                   = Ok (cms_meanReversion c)
            end.
Proof.
  intros Hacc.
  destruct (build_periods b a Hacc) as (t & leg & dl & Hrun & _ & _ & _ & Hper & _).
  exists t, leg. split; [done|]. intros j Hj.
  destruct (Hper j Hj) as (st & en & Hst & Hen & Hcf).
  eexists. split; [exact Hcf|].
  destruct (period_coupon_accrual b a (is_CMS_builder b) dl j st en) as [-> ->].
  rewrite period_coupon_nominal, !get_Ok.
  split; [by apply date_Ok|]. split; [by apply date_Ok|]. split; [done|].
  unfold period_coupon. destruct (reference_period b a j st en).
  destruct b; cbn; rewrite ?get_Ok; done.
Qed.

(** C4. Every coupon of the fixed-rate, CMS and CMS-in-arrears legs is paid
    on its own accrual end date, adjusted with [paymentAdjustment] on the
    schedule's calendar; every coupon of the CMS-zero leg is paid on the
    adjusted final schedule date [date(N-1)], whatever its accrual end. *)
Theorem payment_dates (b : Builder) (a : Args) :
  accepts b a = true ->
  exists t leg,
    build b a = (t, Ok leg)
    /\ length leg = size (arg_schedule a) - 1
    /\ forall j cf, leg !! j = Some cf ->
       date (arg_schedule a) (S j) = Ok (accrualEndDate cf)
       /\ match b with
          | CMSZero =>
              exists last_,
                date (arg_schedule a) (size (arg_schedule a) - 1) = Ok last_
                /\ CashFlow_date cf
                   = adjust (calendar (arg_schedule a)) last_
                       (arg_paymentAdjustment a)
          | _ =>
              CashFlow_date cf
              = adjust (calendar (arg_schedule a)) (accrualEndDate cf)
                  (arg_paymentAdjustment a)
          end.
Proof.
  intros Hacc.
  destruct (build_periods b a Hacc)
    as (t & leg & dl & Hrun & _ & Hdl & Hlen & _ & Hper).
  exists t, leg. split; [done|]. split; [done|]. intros j cf Hcf.
  destruct (Hper j cf Hcf) as (_ & st & en & Hst & Hen & ->).
  destruct (period_coupon_accrual b a (is_CMS_builder b) dl j st en) as [_ ->].
  rewrite period_coupon_payment. split; [by apply date_Ok|].
  unfold payment_date. destruct b; try done.
  exists dl. split; [by apply last_date|done].
Qed.

Lemma reference_dates_of_leg (b : Builder) (a : Args) :
  accepts b a = true ->
  exists t leg,
    build b a = (t, Ok leg)
    /\ length leg = size (arg_schedule a) - 1
    /\ forall j cf, leg !! j = Some cf ->
       let s := arg_schedule a in
       let st := accrualStartDate cf in
       let en := accrualEndDate cf in
       let adj d := adjust (calendar s) d (stub_convention b a) in
       (j = 0 -> date s 1 = Ok en)
       /\ (j = 0 -> isRegular s 1 = Ok true ->
           referencePeriodStart cf = st /\ referencePeriodEnd cf = en)
       /\ (j = 0 -> isRegular s 1 = Ok false ->
           referencePeriodEnd cf = en
           /\ referencePeriodStart cf = adj (Date_minus en (tenor s)))
       /\ (j = size s - 2 -> 2 < size s -> isRegular s (size s - 1) = Ok true ->
           referencePeriodStart cf = st /\ referencePeriodEnd cf = en)
       /\ (j = size s - 2 -> 2 < size s -> isRegular s (size s - 1) = Ok false ->
           referencePeriodStart cf = st
           /\ referencePeriodEnd cf = adj (Date_plus st (tenor s)))
       /\ (0 < j < size s - 2 ->
           referencePeriodStart cf = st /\ referencePeriodEnd cf = en).
Proof.
  intros Hacc. pose proof (accepts_well_formed _ _ Hacc) as Hwf.
  destruct (well_formed_size _ Hwf) as [HN Hfl].
  destruct (build_periods b a Hacc)
    as (t & leg & dl & Hrun & _ & Hdl & Hlen & _ & Hper).
  exists t, leg. split; [done|]. split; [done|]. intros j cf Hcf.
  destruct (Hper j cf Hcf) as (Hj & st & en & Hst & Hen & ->).
  cbv zeta.
  destruct (period_coupon_accrual b a (is_CMS_builder b) dl j st en) as [-> ->].
  destruct (period_coupon_reference b a (is_CMS_builder b) dl j st en) as [-> ->].
  unfold reference_period.
  assert (Hr0 : isRegular (arg_schedule a) 1
                = Ok (period_regular (arg_schedule a) 0))
    by (apply isRegular_period_regular; lia).
  split; [intros ->; by apply date_Ok|].
  assert (HrN : 2 < size (arg_schedule a) ->
                isRegular (arg_schedule a) (size (arg_schedule a) - 1)
                = Ok (period_regular (arg_schedule a) (size (arg_schedule a) - 2))).
  { intros H2. replace (size (arg_schedule a) - 1)
      with (S (size (arg_schedule a) - 2)) by lia.
    apply isRegular_period_regular. lia. }
  split; [intros ->; rewrite Hr0; intros [= ->]; done|].
  split; [intros ->; rewrite Hr0; intros [= ->]; done|].
  split.
  { intros -> H2. rewrite (HrN H2). intros [= ->].
    destruct (Nat.eqb_spec (size (arg_schedule a) - 2) 0); [lia|].
    by rewrite Nat.eqb_refl. }
  split.
  { intros -> H2. rewrite (HrN H2). intros [= ->].
    destruct (Nat.eqb_spec (size (arg_schedule a) - 2) 0); [lia|].
    by rewrite Nat.eqb_refl. }
  intros [H1 H2].
  destruct (Nat.eqb_spec j 0); [lia|].
  destruct (Nat.eqb_spec j (size (arg_schedule a) - 2)); [lia|done].
Qed.

(** C5. Reference dates of the N-1 coupons of the returned leg. Period 0: when [isRegular(1)] the reference dates
    are the accrual dates; otherwise the reference end is the accrual end
    [date(1)] and the reference start is the accrual end minus the tenor,
    calendar-adjusted. Last period of a schedule with N > 2: when
    [isRegular(N-1)] the reference dates are the accrual dates; otherwise
    the reference start is the accrual start and the reference end is the
    accrual start plus the tenor, calendar-adjusted. Every period strictly
    between them has reference dates equal to its accrual dates. *)
Theorem stub_reference_dates (b : Builder) (a : Args) :
  accepts b a = true ->
  exists t leg,
    build b a = (t, Ok leg)
    /\ length leg = size (arg_schedule a) - 1
    /\ forall j cf, leg !! j = Some cf ->
       let s := arg_schedule a in
       let st := accrualStartDate cf in
       let en := accrualEndDate cf in
       let adj d := adjust (calendar s) d (stub_convention b a) in
       (j = 0 -> date s 1 = Ok en)
       /\ (j = 0 -> isRegular s 1 = Ok true ->
           referencePeriodStart cf = st /\ referencePeriodEnd cf = en)
       /\ (j = 0 -> isRegular s 1 = Ok false ->
           referencePeriodEnd cf = en
           /\ referencePeriodStart cf = adj (Date_minus en (tenor s)))
       /\ (j = size s - 2 -> 2 < size s -> isRegular s (size s - 1) = Ok true ->
           referencePeriodStart cf = st /\ referencePeriodEnd cf = en)
       /\ (j = size s - 2 -> 2 < size s -> isRegular s (size s - 1) = Ok false ->
           referencePeriodStart cf = st
           /\ referencePeriodEnd cf = adj (Date_plus st (tenor s)))
       /\ (0 < j < size s - 2 ->
           referencePeriodStart cf = st /\ referencePeriodEnd cf = en).
Proof. apply reference_dates_of_leg. Qed.

(** C6, as the code has it. With a regular first period, a non-empty
    first-period day count that differs from the leg's day count makes
    [FixedRateCouponVector] fail with a configuration error before any
    coupon is constructed; a non-empty first-period day count equal to the
    leg's day count is accepted and the leg is built. *)
Theorem regular_first_period_day_count (a : Args) :
  vec_empty (arg_couponRates a) = false ->
  vec_empty (arg_nominals a) = false ->
  well_formed (arg_schedule a) = true ->
  isRegular (arg_schedule a) 1 = Ok true ->
  DayCounter_empty (arg_firstPeriodDayCount a) = false ->
  (DayCounter_eq (arg_firstPeriodDayCount a) (arg_dayCounter a) = false ->
   build FixedRate a
   = ([], Err (Require_failed
                 "regular first coupon does not allow a first-period day count"))
   /\ is_ConfigurationError
        (Require_failed
           "regular first coupon does not allow a first-period day count")
      = true)
  /\ (DayCounter_eq (arg_firstPeriodDayCount a) (arg_dayCounter a) = true ->
      exists t leg,
        build FixedRate a = (t, Ok leg)
        /\ length leg = size (arg_schedule a) - 1).
Proof.
  intros Hrates Hnoms Hwf Hreg Hfp. split.
  - intros Hne. split; [|reflexivity]. by apply day_count_conflict_fails.
  - intros Heq.
    assert (Hacc : accepts FixedRate a = true).
    { unfold accepts. by rewrite Hwf, Hnoms, Hrates, Hfp, Heq, orb_true_r. }
    exists (run_trace FixedRate a), (period_leg FixedRate a false).
    split; [by apply build_run_FixedRate|by apply length_period_leg].
Qed.

(** C7. If [nominals] is empty (any builder) or [couponRates] is empty
    (fixed-rate builder), the call fails with a configuration error and
    its trace holds no construction: no coupon object was created. *)
Theorem missing_array_fails_before_construction (b : Builder) (a : Args) :
  missing_required b a = true ->
  exists t e,
    build b a = (t, Err e)
    /\ is_ConfigurationError e = true
    /\ constructed t = [].
Proof.
  intros Hmiss. destruct (missing_required_fails b a Hmiss) as [msg Hfail].
  by exists [], (Require_failed msg).
Qed.

Lemma period_coupon_CMS b a att last_ j p :
  is_CMS_builder b = true ->
  exists c,
    period_coupon b a att last_ j p = CF_CMSCoupon c
    /\ cms_isInArrears c = match b with CMSInArrears => true | _ => false end
    /\ cms_swaptionVol c = if att then Some (arg_vol a) else None.
Proof.
  intros Hb. unfold period_coupon. destruct p as [st en].
  destruct (reference_period b a j st en).
  destruct b; [discriminate|..]; by eexists.
Qed.

(** C8. Every coupon that [CMSInArrearsCouponVector] constructs, and every
    coupon of the leg it returns, has the in-arrears flag set; for
    [CMSCouponVector] (and [CMSZeroCouponVector]) the flag is unset. *)
Theorem in_arrears_flag (b : Builder) (a : Args) :
  is_CMS_builder b = true ->
  accepts b a = true ->
  exists t leg,
    build b a = (t, Ok leg)
    /\ length leg = size (arg_schedule a) - 1
    /\ length (constructed t) = size (arg_schedule a) - 1
    /\ forall j cf,
         leg !! j = Some cf \/ constructed t !! j = Some cf ->
         exists c,
           cf = CF_CMSCoupon c
           /\ cms_isInArrears c
              = match b with CMSInArrears => true | _ => false end.
Proof.
  intros Hb Hacc. pose proof (accepts_well_formed _ _ Hacc) as Hwf.
  exists (run_trace b a), (period_leg b a (is_CMS_builder b)).
  split; [by apply build_run|]. split; [by apply length_period_leg|].
  rewrite constructed_run_trace. split; [by apply length_period_leg|].
  intros j cf [Hcf|Hcf];
    apply period_leg_lookup in Hcf as (st & en & dl & _ & _ & _ & ->);
    destruct (period_coupon_CMS b a (is_CMS_builder b) dl j (st, en) Hb)
      as (c & Hc & Harr & _);
    destruct (period_coupon_CMS b a false dl j (st, en) Hb)
      as (c' & Hc' & Harr' & _);
    eauto.
Qed.

(** C9. In the three CMS builders the cast in the attachment loop cannot
    fail: whatever the arguments, the call does not end in the
    "unexpected error when casting to CMSCoupon" failure (it succeeds or
    fails with a configuration error). On a successful call every
    constructed element is a CMS coupon, and each of the N-1 coupons of the
    returned leg is the constructed coupon at the same position with the
    caller's volatility handle attached, the handle having been set on that
    position exactly once. *)
Theorem volatility_attached_exactly_once (b : Builder) (a : Args) :
  is_CMS_builder b = true ->
  failed_cast (build b a) = false
  /\ (forall t e, build b a = (t, Err e) -> is_ConfigurationError e = true)
  /\ (accepts b a = true ->
      exists t leg,
        build b a = (t, Ok leg)
        /\ length leg = size (arg_schedule a) - 1
        /\ forall j, j < size (arg_schedule a) - 1 ->
           exists c0,
             constructed t !! j = Some (CF_CMSCoupon c0)
             /\ cms_swaptionVol c0 = None
             /\ leg !! j
                = Some (CF_CMSCoupon (setSwaptionVolatility c0 (arg_vol a)))
             /\ volatility_sets t j = [arg_vol a]).
Proof.
  intros Hb. pose proof (build_CMS_safe b a Hb) as Hsafe.
  split; [|split].
  - unfold wp in Hsafe. unfold failed_cast.
    destruct ((build b a).2) as [leg|[msg|msg|]]; done.
  - intros t e Hrun. unfold wp in Hsafe. by rewrite Hrun in Hsafe.
  - intros Hacc. pose proof (accepts_well_formed _ _ Hacc) as Hwf.
    exists (run_trace b a), (period_leg b a (is_CMS_builder b)).
    split; [by apply build_run|]. split; [by apply length_period_leg|].
    intros j Hj. rewrite constructed_run_trace.
    assert (Hlt : j < length (period_leg b a false))
      by (rewrite length_period_leg; done).
    destruct (lookup_lt_is_Some_2 _ _ Hlt) as [cf Hcf].
    pose proof Hcf as Hcf'.
    apply period_leg_lookup in Hcf' as (st & en & dl & Hst & Hen & Hdl & ->).
    destruct (period_coupon_CMS b a false dl j (st, en) Hb) as (c0 & Hc0 & _ & Hvol).
    exists c0. rewrite Hcf, Hc0. split; [done|]. split; [done|].
    split; [|by apply volatility_sets_run_trace].
    rewrite Hb. apply period_leg_lookup. exists st, en, dl.
    repeat split; try done.
    by rewrite <- (attached_period_coupon b a dl j (st, en) Hb), Hc0.
Qed.

End Properties.


(** C6 as the spec words it fails: the first period of [override_arguments]
    is regular and a non-empty first-period day count is supplied, yet the
    call succeeds and returns the four coupons. *)
Lemma regular_first_period_override_accepted :
  isRegular (arg_schedule override_arguments) 1 = Ok true
  /\ DayCounter_empty (arg_firstPeriodDayCount override_arguments) = false
  /\ (exists t leg,
        build FixedRate override_arguments = (t, Ok leg) /\ length leg = 4)
  /\ ~ (exists t e, build FixedRate override_arguments = (t, Err e)).
Proof.
  pose proof (build_run_FixedRate override_arguments eq_refl) as Hrun.
  split; [reflexivity|]. split; [reflexivity|]. split.
  - eexists _, _. split; [exact Hrun|]. by vm_compute.
  - intros (t & e & H). rewrite Hrun in H. discriminate H.
Qed.

(** ** The theorems at concrete inputs *)

Lemma leg_has_one_coupon_per_period_witness :
  accepts CMSZero single_period_arguments = true
  /\ exists t leg,
       build CMSZero single_period_arguments = (t, Ok leg)
       /\ length leg = 1 /\ length (constructed t) = 1.
Proof.
  split; [reflexivity|].
  destruct (leg_has_one_coupon_per_period CMSZero single_period_arguments eq_refl)
    as (t & leg & Hrun & _ & Hlen & Hcon & _).
  exists t, leg. split; [exact Hrun|]. split; [exact Hlen|exact Hcon].
Defined.

Lemma period_parameters_use_period_index_witness :
  accepts FixedRate quarterly_arguments = true
  /\ exists t leg,
       build FixedRate quarterly_arguments = (t, Ok leg)
       /\ exists c,
            leg !! 3 = Some (CF_FixedRateCoupon c)
            /\ get (arg_nominals quarterly_arguments) 3 Null_Real
               = Ok (frc_nominal c)
            /\ get (arg_couponRates quarterly_arguments) 3 Null_Real
               = Ok (frc_rate c).
Proof.
  split; [reflexivity|].
  destruct (period_parameters_use_period_index FixedRate quarterly_arguments
              eq_refl) as (t & leg & Hrun & Hper).
  exists t, leg. split; [exact Hrun|].
  destruct (Hper 3 ltac:(vm_compute; lia)) as (cf & Hcf & _ & _ & Hnom & Hrest).
  destruct cf as [c|c].
  - exists c. split; [exact Hcf|]. split; [exact Hnom|exact (proj2 Hrest)].
  - destruct Hrest as [Hb _]. discriminate Hb.
Defined.

Lemma payment_dates_witness :
  accepts CMSZero stub_arguments = true
  /\ exists t leg,
       build CMSZero stub_arguments = (t, Ok leg)
       /\ length leg = 3
       /\ forall j cf, leg !! j = Some cf ->
          CashFlow_date cf = (240%Z : @Date sample_services).
Proof.
  split; [reflexivity|].
  destruct (payment_dates CMSZero stub_arguments eq_refl)
    as (t & leg & Hrun & Hlen & Hpay).
  exists t, leg. split; [exact Hrun|]. split; [exact Hlen|].
  intros j cf Hcf. destruct (Hpay j cf Hcf) as (_ & last_ & Hlast & ->).
  injection Hlast as <-. reflexivity.
Defined.

Lemma stub_reference_dates_witness :
  accepts CMSInArrears stub_arguments = true
  /\ exists t leg,
       build CMSInArrears stub_arguments = (t, Ok leg)
       /\ length leg = 3
       /\ exists cf,
            leg !! 0 = Some cf
            /\ referencePeriodEnd cf = (94%Z : @Date sample_services)
            /\ referencePeriodStart cf = (4%Z : @Date sample_services).
Proof.
  split; [reflexivity|].
  destruct (stub_reference_dates CMSInArrears stub_arguments eq_refl)
    as (t & leg & Hrun & Hlen & Href).
  exists t, leg. split; [exact Hrun|]. split; [exact Hlen|].
  destruct (lookup_lt_is_Some_2 leg 0) as [cf Hcf].
  { rewrite Hlen. vm_compute. lia. }
  exists cf. split; [exact Hcf|].
  destruct (Href 0 cf Hcf) as (Hen & _ & Hirr & _).
  specialize (Hen eq_refl). injection Hen as Hen.
  destruct (Hirr eq_refl eq_refl) as [-> ->].
  rewrite <- Hen. split; reflexivity.
Defined.

Lemma regular_first_period_day_count_witness :
  DayCounter_eq (arg_firstPeriodDayCount conflicting_arguments)
    (arg_dayCounter conflicting_arguments) = false
  /\ build FixedRate conflicting_arguments
     = ([], Err (Require_failed
                   "regular first coupon does not allow a first-period day count")).
Proof.
  split; [reflexivity|].
  exact (proj1 (proj1 (regular_first_period_day_count conflicting_arguments
                         eq_refl eq_refl eq_refl eq_refl eq_refl) eq_refl)).
Defined.

Lemma missing_array_fails_before_construction_witness :
  missing_required CMSInArrears empty_nominals_arguments = true
  /\ exists t e,
       build CMSInArrears empty_nominals_arguments = (t, Err e)
       /\ constructed t = [].
Proof.
  split; [reflexivity|].
  destruct (missing_array_fails_before_construction CMSInArrears
              empty_nominals_arguments eq_refl) as (t & e & Hrun & _ & Hcon).
  exists t, e. split; [exact Hrun|exact Hcon].
Defined.

Lemma in_arrears_flag_witness :
  accepts CMSInArrears quarterly_arguments = true
  /\ exists t leg,
       build CMSInArrears quarterly_arguments = (t, Ok leg) /\ length leg = 4.
Proof.
  split; [reflexivity|].
  destruct (in_arrears_flag CMSInArrears quarterly_arguments eq_refl eq_refl)
    as (t & leg & Hrun & Hlen & _).
  exists t, leg. split; [exact Hrun|exact Hlen].
Defined.

Lemma volatility_attached_exactly_once_witness :
  is_CMS_builder CMS = true
  /\ accepts CMS stub_arguments = true
  /\ failed_cast (build CMS stub_arguments) = false
  /\ exists t leg,
       build CMS stub_arguments = (t, Ok leg)
       /\ length leg = 3
       /\ volatility_sets t 0 = [arg_vol stub_arguments]
       /\ volatility_sets t 1 = [arg_vol stub_arguments]
       /\ volatility_sets t 2 = [arg_vol stub_arguments].
Proof.
  split; [reflexivity|]. split; [reflexivity|].
  destruct (volatility_attached_exactly_once CMS stub_arguments eq_refl)
    as (Hcast & _ & Hacc).
  split; [exact Hcast|].
  destruct (Hacc eq_refl) as (t & leg & Hrun & Hlen & Hper).
  exists t, leg. split; [exact Hrun|]. split; [exact Hlen|].
  destruct (Hper 0 ltac:(vm_compute; lia)) as (? & _ & _ & _ & Hv0).
  destruct (Hper 1 ltac:(vm_compute; lia)) as (? & _ & _ & _ & Hv1).
  destruct (Hper 2 ltac:(vm_compute; lia)) as (? & _ & _ & _ & Hv2).
  split; [exact Hv0|]. split; [exact Hv1|exact Hv2].
Defined.

(** * Further properties of the builders *)

Section MoreProperties.
Context `{Sv : Services}.

(** X1. On a schedule of N >= 2 dates with N-1 flags a builder either
    returns a leg of N-1 coupons, exactly when [accepts] holds, or fails on
    a [QL_REQUIRE] with an empty trace: it never fails after a coupon has
    been constructed. *)
Theorem success_exactly_when_accepted (b : Builder) (a : Args) :
  well_formed (arg_schedule a) = true ->
  (accepts b a = true
   /\ exists t leg,
        build b a = (t, Ok leg) /\ length leg = size (arg_schedule a) - 1)
  \/ (accepts b a = false
      /\ exists msg, build b a = ([], Err (Require_failed msg))).
Proof.
  intros Hwf. destruct (accepts b a) eqn:Hacc.
  - left. split; [done|].
    exists (run_trace b a), (period_leg b a (is_CMS_builder b)).
    split; [by apply build_run|by apply length_period_leg].
  - right. split; [done|].
    destruct (missing_required b a) eqn:Hmiss.
    { by apply missing_required_fails. }
    unfold missing_required in Hmiss. apply orb_false_iff in Hmiss as [Hnoms Hb].
    unfold accepts in Hacc. rewrite Hwf, Hnoms in Hacc. cbn [negb andb] in Hacc.
    destruct b; [|done..]. rewrite Hb in Hacc. cbn [negb andb] in Hacc.
    destruct (well_formed_size _ Hwf) as [HN Hfl].
    pose proof (isRegular_period_regular (arg_schedule a) 0 ltac:(lia)) as Hreg.
    destruct (period_regular (arg_schedule a) 0); [|done].
    destruct (DayCounter_empty (arg_firstPeriodDayCount a)) eqn:Hfp; [done|].
    destruct (DayCounter_eq (arg_firstPeriodDayCount a) (arg_dayCounter a))
      eqn:Heq; [done|].
    eexists. by apply day_count_conflict_fails.
Qed.

(** X2. Which check fires first. The fixed-rate builder reports "coupon
    rates not specified" whenever [couponRates] is empty, also when
    [nominals] is empty too, and "nominals not specified" otherwise; the
    CMS builders report "no nominal given". The schedule is not looked at
    and nothing is constructed. *)
Theorem missing_array_messages (b : Builder) (a : Args) :
  missing_required b a = true ->
  build b a
  = ([], Err (Require_failed
                match b with
                | FixedRate =>
                    if vec_empty (arg_couponRates a)
                    then "coupon rates not specified"
                    else "nominals not specified"
                | _ => "no nominal given"
                end)).
Proof.
  unfold missing_required. intros Hmiss.
  destruct b; unfold build, FixedRateCouponVector, CMSCouponVector,
    CMSZeroCouponVector, CMSInArrearsCouponVector; cbv zeta.
  - destruct (vec_empty (arg_couponRates a)) eqn:Hr; [done|].
    rewrite orb_false_r in Hmiss. by rewrite Hmiss.
  - rewrite orb_false_r in Hmiss. by rewrite Hmiss.
  - rewrite orb_false_r in Hmiss. by rewrite Hmiss.
  - rewrite orb_false_r in Hmiss. by rewrite Hmiss.
Qed.

(** X3. Day counters of a fixed-rate leg. The leg has N-1 elements and
    every one is a [FixedRateCoupon]; each coupon after the first uses [dayCount], the
    last stub included; the first coupon uses [dayCount] when the period is
    regular or no first-period day count is given, and the first-period day
    count when the period is irregular and one is given. *)
Theorem fixed_rate_day_counters (a : Args) :
  accepts FixedRate a = true ->
  exists t leg,
    build FixedRate a = (t, Ok leg)
    /\ length leg = size (arg_schedule a) - 1
    /\ forall j cf, leg !! j = Some cf ->
       exists c,
         cf = CF_FixedRateCoupon c
         /\ (j <> 0 -> frc_dayCounter c = arg_dayCounter a)
         /\ (j = 0 -> isRegular (arg_schedule a) 1 = Ok true ->
             frc_dayCounter c = arg_dayCounter a)
         /\ (j = 0 -> isRegular (arg_schedule a) 1 = Ok false ->
             frc_dayCounter c
             = if DayCounter_empty (arg_firstPeriodDayCount a)
               then arg_dayCounter a
               else arg_firstPeriodDayCount a).
Proof.
  intros Hacc. pose proof (accepts_well_formed _ _ Hacc) as Hwf.
  destruct (well_formed_size _ Hwf) as [HN Hfl].
  destruct (build_periods FixedRate a Hacc)
    as (t & leg & dl & Hrun & _ & _ & Hlen & _ & Hper).
  exists t, leg. split; [done|]. split; [done|]. intros j cf Hcf.
  destruct (Hper j cf Hcf) as (_ & st & en & _ & _ & ->).
  unfold period_coupon. destruct (reference_period FixedRate a j st en).
  eexists. split; [reflexivity|]. cbn [frc_dayCounter].
  pose proof (isRegular_period_regular (arg_schedule a) 0 ltac:(lia)) as Hreg.
  split; [|split].
  - intros Hj. by rewrite (proj2 (Nat.eqb_neq _ _) Hj).
  - intros -> Hr. rewrite Hreg in Hr. injection Hr as ->. done.
  - intros -> Hr. rewrite Hreg in Hr. injection Hr as ->. cbn.
    by destruct (DayCounter_empty _).
Qed.

(** X4. A CMS leg has N-1 elements and every one is a [CMSCoupon] holding
    the caller's index, day lag, day counter and pricer. *)
Theorem cms_coupon_configuration (b : Builder) (a : Args) :
  is_CMS_builder b = true ->
  accepts b a = true ->
  exists t leg,
    build b a = (t, Ok leg)
    /\ length leg = size (arg_schedule a) - 1
    /\ forall j cf, leg !! j = Some cf ->
       exists c,
         cf = CF_CMSCoupon c
         /\ cms_index c = arg_index a
         /\ cms_fixingDays c = arg_days a
         /\ cms_dayCounter c = arg_dayCounter a
         /\ cms_pricer c = arg_pricer a.
Proof.
  intros Hb Hacc.
  destruct (build_periods b a Hacc)
    as (t & leg & dl & Hrun & _ & _ & Hlen & _ & Hper).
  exists t, leg. split; [done|]. split; [done|]. intros j cf Hcf.
  destruct (Hper j cf Hcf) as (_ & st & en & _ & _ & ->).
  unfold period_coupon. destruct (reference_period b a j st en).
  destruct b; [discriminate|..]; by eexists.
Qed.

(** X5. The builders read [isRegular] for the first and for the last
    period only: a schedule whose flags agree with the original at
    positions 0 and N-2 gives the same run (same trace, same result, same
    error if any), whatever its other flags are. *)
Theorem only_boundary_flags_are_read (b : Builder) (a : Args) (flags : list bool) :
  flags !! 0 = isRegular_ (arg_schedule a) !! 0 ->
  flags !! (size (arg_schedule a) - 2)
  = isRegular_ (arg_schedule a) !! (size (arg_schedule a) - 2) ->
  build b (set_schedule a (set_isRegular (arg_schedule a) flags)) = build b a.
Proof.
  intros H0 HN.
  set (a' := set_schedule a (set_isRegular (arg_schedule a) flags)).
  assert (H1 : isRegular (arg_schedule a') 1 = isRegular (arg_schedule a) 1).
  { unfold isRegular. cbn [a' set_schedule set_isRegular arg_schedule isRegular_].
    by rewrite H0. }
  assert (H2 : isRegular (arg_schedule a') (size (arg_schedule a') - 1)
               = isRegular (arg_schedule a) (size (arg_schedule a) - 1)).
  { change (size (arg_schedule a')) with (size (arg_schedule a)).
    unfold isRegular. destruct (size (arg_schedule a) - 1) as [|k] eqn:Hk; [done|].
    cbn [a' set_schedule set_isRegular arg_schedule isRegular_].
    replace k with (size (arg_schedule a) - 2) by lia. by rewrite HN. }
  destruct b; unfold build, FixedRateCouponVector, CMSCouponVector,
    CMSZeroCouponVector, CMSInArrearsCouponVector; cbv zeta;
    rewrite H1, H2; reflexivity.
Qed.

(** X6. The CMS builders never read the schedule's own business-day
    convention: replacing it leaves the run unchanged, failures included. *)
Theorem cms_builders_ignore_schedule_convention (b : Builder) (a : Args)
    (c : BusinessDayConvention) :
  is_CMS_builder b = true ->
  build b (set_schedule a
             (set_tenor_and_convention (arg_schedule a)
                (tenor (arg_schedule a)) c))
  = build b a.
Proof. intros Hb. destruct b; [discriminate|reflexivity..]. Qed.

(** ** Runs that must agree *)

Lemma period_leg_ext (b : Builder) (a a' : Args) (att : bool) :
  dates (arg_schedule a') = dates (arg_schedule a) ->
  (forall last_ j p,
      j < size (arg_schedule a) - 1 ->
      period_coupon b a' att last_ j p = period_coupon b a att last_ j p) ->
  period_leg b a' att = period_leg b a att.
Proof.
  intros Hds Hco. unfold period_leg, periods. rewrite Hds.
  destruct (last (dates (arg_schedule a))) as [dl|]; [|done].
  apply imap_ext. intros j p Hp. apply Hco.
  apply lookup_lt_Some in Hp. rewrite length_zip in Hp.
  unfold size. destruct (dates (arg_schedule a)); cbn [tail length] in *; lia.
Qed.

Lemma build_ext (b : Builder) (a a' : Args) :
  accepts b a = true ->
  accepts b a' = true ->
  dates (arg_schedule a') = dates (arg_schedule a) ->
  arg_vol a' = arg_vol a ->
  (forall att last_ j p,
      j < size (arg_schedule a) - 1 ->
      period_coupon b a' att last_ j p = period_coupon b a att last_ j p) ->
  build b a' = build b a.
Proof.
  intros Hacc Hacc' Hds Hvol Hco.
  rewrite (build_run b a Hacc), (build_run b a' Hacc').
  unfold run_trace, size. rewrite Hds, Hvol.
  rewrite !(period_leg_ext b a a' _ Hds (Hco _)). reflexivity.
Qed.

Lemma reference_period_regular b a j st en :
  period_regular (arg_schedule a) 0 = true ->
  period_regular (arg_schedule a) (size (arg_schedule a) - 2) = true ->
  reference_period b a j st en = (st, en).
Proof.
  intros H0 HN. unfold reference_period. rewrite H0, HN.
  by destruct (j =? 0), (j =? size (arg_schedule a) - 2).
Qed.

(** X7. When the first and the last period are regular, the tenor and the
    schedule's convention are not used: replacing them leaves the run
    unchanged. *)
Theorem regular_stubs_ignore_tenor_and_convention (b : Builder) (a : Args)
    (t : Period) (c : BusinessDayConvention) :
  accepts b a = true ->
  isRegular (arg_schedule a) 1 = Ok true ->
  isRegular (arg_schedule a) (size (arg_schedule a) - 1) = Ok true ->
  build b (set_schedule a (set_tenor_and_convention (arg_schedule a) t c))
  = build b a.
Proof.
  intros Hacc Hr0 HrN. pose proof (accepts_well_formed _ _ Hacc) as Hwf.
  destruct (well_formed_size _ Hwf) as [HN Hfl].
  rewrite (isRegular_period_regular (arg_schedule a) 0) in Hr0 by lia.
  replace (size (arg_schedule a) - 1) with (S (size (arg_schedule a) - 2))
    in HrN by lia.
  rewrite (isRegular_period_regular (arg_schedule a)) in HrN by lia.
  injection Hr0 as Hr0. injection HrN as HrN.
  apply build_ext; try done.
  intros att dl j [st en] Hj. unfold period_coupon.
  rewrite (reference_period_regular b a j st en Hr0 HrN).
  rewrite (reference_period_regular b
             (set_schedule a (set_tenor_and_convention (arg_schedule a) t c))
             j st en Hr0 HrN).
  reflexivity.
Qed.

Lemma build_map_arrays (b : Builder) (a : Args) (f : list Real -> list Real) :
  accepts b a = true ->
  (forall v, vec_empty (f v) = vec_empty v) ->
  (forall v j d, j < size (arg_schedule a) - 1 ->
     resolve (f v) j d = resolve v j d) ->
  build b (map_arrays f a) = build b a.
Proof.
  intros Hacc Hempty Hres. apply build_ext; try done.
  - unfold accepts in *.
    cbn [map_arrays arg_schedule arg_nominals arg_couponRates arg_dayCounter
         arg_firstPeriodDayCount].
    by rewrite !Hempty.
  - intros att dl j [st en] Hj. unfold period_coupon.
    change (reference_period b (map_arrays f a) j st en)
      with (reference_period b a j st en).
    destruct (reference_period b a j st en).
    cbn [map_arrays arg_schedule arg_nominals arg_couponRates arg_dayCounter
         arg_firstPeriodDayCount arg_gearings arg_spreads arg_caps arg_floors
         arg_meanReversions arg_index arg_days arg_pricer arg_vol
         arg_paymentAdjustment].
    rewrite !Hres by done. reflexivity.
Qed.

Lemma resolve_take (n : nat) (v : list Real) (j : nat) (d : Real) :
  j < n -> resolve (take n v) j d = resolve v j d.
Proof.
  intros Hj. destruct (decide (length v <= n)) as [Hle|Hgt].
  - by rewrite take_ge.
  - unfold resolve. rewrite lookup_take_lt by done.
    destruct (lookup_lt_is_Some_2 v j ltac:(lia)) as [x ->].
    destruct v as [|y v]; [cbn in Hgt; lia|].
    destruct n; [lia|]. reflexivity.
Qed.

Lemma vec_empty_take (n : nat) (v : list Real) :
  0 < n -> vec_empty (take n v) = vec_empty v.
Proof. destruct n; [lia|]. by destruct v. Qed.

Lemma resolve_hold_last (k : nat) (v : list Real) (j : nat) (d : Real) :
  resolve (hold_last k v) j d = resolve v j d.
Proof.
  unfold hold_last. destruct (last v) as [x|] eqn:Hl; [|done].
  assert (Hne : v <> []) by (intros ->; discriminate).
  assert (Hl' : last (v ++ replicate k x) = Some x).
  { destruct k; [by rewrite app_nil_r|].
    rewrite last_app. replace (S k) with (k + 1) by lia.
    rewrite replicate_add. cbn [replicate]. by rewrite last_snoc. }
  unfold resolve. rewrite Hl, Hl'.
  destruct v as [|y v]; [done|]. cbn [app].
  change (y :: v ++ replicate k x) with ((y :: v) ++ replicate k x).
  destruct (decide (j < length (y :: v))) as [Hlt|Hge].
  - rewrite lookup_app_l by done. reflexivity.
  - rewrite lookup_app_r by lia. rewrite (lookup_ge_None_2 (y :: v) j) by lia.
    destruct (replicate k x !! (j - length (y :: v))) as [z|] eqn:Hz; [|done].
    by apply lookup_replicate in Hz as [-> _].
Qed.

Lemma vec_empty_hold_last (k : nat) (v : list Real) :
  vec_empty (hold_last k v) = vec_empty v.
Proof.
  unfold hold_last. destruct (last v) eqn:Hl; [|done].
  destruct v; [discriminate|done].
Qed.

(** X8. Entries of the per-period arrays at positions N-1 and beyond are
    never read: cutting every array down to its first [n >= N-1] entries
    leaves the run unchanged. *)
Theorem entries_beyond_the_periods_are_not_read (b : Builder) (a : Args) (n : nat) :
  accepts b a = true ->
  size (arg_schedule a) - 1 <= n ->
  build b (map_arrays (take n) a) = build b a.
Proof.
  intros Hacc Hn. pose proof (accepts_well_formed _ _ Hacc) as Hwf.
  destruct (well_formed_size _ Hwf) as [HN _].
  apply build_map_arrays; [done| |].
  - intros v. apply vec_empty_take. lia.
  - intros v j d Hj. apply resolve_take. lia.
Qed.

(** X9. A short array stands for the array continued with its last
    value: appending [k] copies of the last element to every non-empty
    array (empty arrays stay empty) leaves the run unchanged. *)
Theorem short_arrays_hold_their_last_value (b : Builder) (a : Args) (k : nat) :
  accepts b a = true ->
  build b (map_arrays (hold_last k) a) = build b a.
Proof.
  intros Hacc. apply build_map_arrays; [done| |].
  - apply vec_empty_hold_last.
  - intros v j d _. apply resolve_hold_last.
Qed.

(** ** The three CMS builders against each other *)

Lemma period_leg_attached (b : Builder) (a : Args) :
  is_CMS_builder b = true ->
  period_leg b a true = attached (arg_vol a) <$> period_leg b a false.
Proof.
  intros Hb. unfold period_leg.
  destruct (last (dates (arg_schedule a))) as [dl|]; [|done].
  rewrite fmap_imap. apply imap_ext. intros j p _. cbn.
  by rewrite attached_period_coupon.
Qed.

(** X10. The three CMS builders are copies that differ where intended
    only. On the same arguments, the in-arrears leg is the CMS leg with the
    in-arrears flag set on every coupon, and the zero leg is the CMS leg
    with every payment date replaced by the adjusted final schedule date;
    the same holds for the coupons as constructed. *)
Theorem cms_builders_differ_in_payment_date_and_flag_only (a : Args) :
  accepts CMS a = true ->
  exists t leg tz legz ta lega last_,
    build CMS a = (t, Ok leg)
    /\ build CMSZero a = (tz, Ok legz)
    /\ build CMSInArrears a = (ta, Ok lega)
    /\ date (arg_schedule a) (size (arg_schedule a) - 1) = Ok last_
    /\ lega = with_isInArrears true <$> leg
    /\ legz
       = with_paymentDate
           (adjust (calendar (arg_schedule a)) last_ (arg_paymentAdjustment a))
         <$> leg
    /\ constructed ta = with_isInArrears true <$> constructed t
    /\ constructed tz
       = with_paymentDate
           (adjust (calendar (arg_schedule a)) last_ (arg_paymentAdjustment a))
         <$> constructed t.
Proof.
  intros Hacc. pose proof (accepts_well_formed _ _ Hacc) as Hwf.
  destruct (well_formed_last _ Hwf) as [dl Hdl].
  assert (Harr : forall att,
             period_leg CMSInArrears a att
             = with_isInArrears true <$> period_leg CMS a att).
  { intros att. unfold period_leg. rewrite Hdl, fmap_imap.
    apply imap_ext. intros j [st en] _. cbn. unfold period_coupon.
    change (reference_period CMSInArrears a j st en)
      with (reference_period CMS a j st en).
    by destruct (reference_period CMS a j st en). }
  assert (Hzero : forall att,
             period_leg CMSZero a att
             = with_paymentDate
                 (adjust (calendar (arg_schedule a)) dl (arg_paymentAdjustment a))
               <$> period_leg CMS a att).
  { intros att. unfold period_leg. rewrite Hdl, fmap_imap.
    apply imap_ext. intros j [st en] _. cbn. unfold period_coupon.
    change (reference_period CMSZero a j st en)
      with (reference_period CMS a j st en).
    by destruct (reference_period CMS a j st en). }
  exists (run_trace CMS a), (period_leg CMS a true),
    (run_trace CMSZero a), (period_leg CMSZero a true),
    (run_trace CMSInArrears a), (period_leg CMSInArrears a true), dl.
  split; [by apply (build_run CMS)|].
  split; [by apply (build_run CMSZero)|].
  split; [by apply (build_run CMSInArrears)|].
  split; [by apply last_date|].
  rewrite !constructed_run_trace. by rewrite !Harr, !Hzero.
Qed.

(** ** Order of the effects *)

(** X11. Order of the effects of an accepted call: the N-1 coupons are
    constructed first, in period order; a CMS builder then attaches the
    volatility to positions 0, 1, ..., N-2 in that order and returns those
    coupons with the handle attached; the fixed-rate builder attaches
    nothing and returns the coupons as constructed. *)
Theorem constructions_precede_attachments (b : Builder) (a : Args) :
  accepts b a = true ->
  exists cs leg,
    build b a
    = ((Constructed <$> cs)
       ++ (if is_CMS_builder b
           then (fun i => VolatilitySet i (arg_vol a)) <$> seq 0 (length cs)
           else []),
       Ok leg)
    /\ length cs = size (arg_schedule a) - 1
    /\ leg = if is_CMS_builder b then attached (arg_vol a) <$> cs else cs.
Proof.
  intros Hacc. pose proof (accepts_well_formed _ _ Hacc) as Hwf.
  exists (period_leg b a false), (period_leg b a (is_CMS_builder b)).
  rewrite (length_period_leg b a false Hwf).
  split; [exact (build_run b a Hacc)|]. split; [done|].
  destruct (is_CMS_builder b) eqn:Hb; [by apply period_leg_attached|done].
Qed.

(** ** The attachment loop on an arbitrary leg *)

(** X12. The attachment loop (lines 259-266) on any leg of CMS coupons:
    it visits the positions in order, succeeds, keeps the length, and
    leaves at each position the same coupon with the handle set. *)
Theorem attachment_on_a_cms_leg (vol : VolatilityHandle) (leg : list CashFlow) :
  Forall (fun cf => is_CMSCoupon cf = true) leg ->
  exists leg',
    attach_volatility vol leg
    = ((fun i => VolatilitySet i vol) <$> seq 0 (length leg), Ok leg')
    /\ length leg' = length leg
    /\ forall j cf, leg !! j = Some cf ->
       exists c,
         cf = CF_CMSCoupon c
         /\ leg' !! j = Some (CF_CMSCoupon (setSwaptionVolatility c vol)).
Proof.
  intros Hall. exists (attached vol <$> leg).
  split; [by apply runs_attach_volatility|]. split; [by rewrite length_fmap|].
  intros j cf Hcf. rewrite list_lookup_fmap, Hcf.
  pose proof (proj1 (Forall_lookup _ _) Hall j cf Hcf) as Hc.
  destruct cf as [c|c]; [discriminate|]. by exists c.
Qed.

Lemma for_steps_attach_stops (vol : VolatilityHandle) (pre : list CashFlow)
    (c : FixedRateCoupon) (post : list CashFlow) :
  forall done_ : list CashFlow,
    Forall (fun cf => is_CMSCoupon cf = true) pre ->
    for_steps (length pre + S (length post)) (length done_)
      (fun i leg =>
         bind (lift (vec_at leg i))
           (fun cf =>
              match dynamic_pointer_cast_CMSCoupon cf with
              | Some cmsCoupon =>
                  bind (tell (VolatilitySet i vol))
                    (fun _ =>
                       ret (<[i := CF_CMSCoupon
                                     (setSwaptionVolatility cmsCoupon vol)]> leg))
              | None => QL_FAIL "unexpected error when casting to CMSCoupon"
              end))
      (done_ ++ pre ++ CF_FixedRateCoupon c :: post)
    = ((fun i => VolatilitySet i vol) <$> seq (length done_) (length pre),
       Err (Fail_raised "unexpected error when casting to CMSCoupon")).
Proof.
  induction pre as [|cf pre IH]; intros done_ Hall.
  - cbn [length Nat.add for_steps app seq fmap list_fmap].
    unfold vec_at.
    rewrite (list_lookup_middle done_ post (CF_FixedRateCoupon c) _ eq_refl).
    reflexivity.
  - apply Forall_cons in Hall as [Hcf Hall].
    destruct cf as [c0|c0]; [discriminate|].
    cbn [length Nat.add for_steps seq]. rewrite fmap_cons.
    unfold vec_at at 1.
    change (done_ ++ (CF_CMSCoupon c0 :: pre) ++ CF_FixedRateCoupon c :: post)
      with (done_ ++ CF_CMSCoupon c0 :: (pre ++ CF_FixedRateCoupon c :: post)).
    rewrite (list_lookup_middle done_ _ (CF_CMSCoupon c0) _ eq_refl).
    cbn [dynamic_pointer_cast_CMSCoupon].
    replace (bind (lift (Ok (CF_CMSCoupon c0))) _)
      with ([VolatilitySet (length done_) vol],
            Ok ((done_ ++ [CF_CMSCoupon (setSwaptionVolatility c0 vol)])
                ++ pre ++ CF_FixedRateCoupon c :: post)).
    2:{ cbn. do 2 f_equal.
        rewrite <- (Nat.add_0_r (length done_)) at 1.
        by rewrite insert_app_r, <- app_assoc. }
    rewrite bind_Ok.
    replace (S (length done_))
      with (length (done_ ++ [CF_CMSCoupon (setSwaptionVolatility c0 vol)]))
      by (rewrite length_app; cbn; lia).
    by rewrite IH.
Qed.

(** X13. The attachment loop on a leg whose first element that is not a
    [CMSCoupon] sits at position k: the handle is set on positions
    0 .. k-1, then the loop ends in the [QL_FAIL] "unexpected error when
    casting to CMSCoupon"; later elements are not visited. *)
Theorem attachment_stops_at_the_first_foreign_element (vol : VolatilityHandle)
    (pre : list CashFlow) (c : FixedRateCoupon) (post : list CashFlow) :
  Forall (fun cf => is_CMSCoupon cf = true) pre ->
  attach_volatility vol (pre ++ CF_FixedRateCoupon c :: post)
  = ((fun i => VolatilitySet i vol) <$> seq 0 (length pre),
     Err (Fail_raised "unexpected error when casting to CMSCoupon")).
Proof.
  intros Hall. unfold attach_volatility, for_range.
  rewrite Nat.sub_0_r, length_app. cbn [length].
  exact (for_steps_attach_stops vol pre c post [] Hall).
Qed.

End MoreProperties.

(** ** The further properties at concrete inputs *)

Lemma success_exactly_when_accepted_witness :
  well_formed (arg_schedule conflicting_arguments) = true
  /\ accepts FixedRate conflicting_arguments = false
  /\ exists msg,
       build FixedRate conflicting_arguments = ([], Err (Require_failed msg)).
Proof.
  split; [reflexivity|].
  destruct (success_exactly_when_accepted FixedRate conflicting_arguments eq_refl)
    as [[Hacc _]|H]; [discriminate Hacc|exact H].
Defined.

Lemma missing_array_messages_witness :
  missing_required FixedRate nothing_given_arguments = true
  /\ build FixedRate nothing_given_arguments
     = ([], Err (Require_failed "coupon rates not specified")).
Proof.
  split; [reflexivity|].
  exact (missing_array_messages FixedRate nothing_given_arguments eq_refl).
Defined.

Lemma fixed_rate_day_counters_witness :
  accepts FixedRate stub_override_arguments = true
  /\ exists t leg,
       build FixedRate stub_override_arguments = (t, Ok leg)
       /\ length leg = 3
       /\ exists c0 c2,
            leg !! 0 = Some (CF_FixedRateCoupon c0)
            /\ frc_dayCounter c0 = Some "30/360"%string
            /\ leg !! 2 = Some (CF_FixedRateCoupon c2)
            /\ frc_dayCounter c2 = Some "Actual/360"%string.
Proof.
  split; [reflexivity|].
  destruct (fixed_rate_day_counters stub_override_arguments eq_refl)
    as (t & leg & Hrun & Hlen & Hdc).
  exists t, leg. split; [exact Hrun|]. split; [exact Hlen|].
  destruct (lookup_lt_is_Some_2 leg 0) as [cf0 Hcf0].
  { rewrite Hlen. vm_compute. lia. }
  destruct (lookup_lt_is_Some_2 leg 2) as [cf2 Hcf2].
  { rewrite Hlen. vm_compute. lia. }
  destruct (Hdc 0 cf0 Hcf0) as (c0 & -> & _ & _ & Hirr).
  destruct (Hdc 2 cf2 Hcf2) as (c2 & -> & Hrest & _).
  exists c0, c2. split; [exact Hcf0|]. split; [exact (Hirr eq_refl eq_refl)|].
  split; [exact Hcf2|]. apply Hrest. discriminate.
Defined.

Lemma cms_coupon_configuration_witness :
  is_CMS_builder CMSZero = true
  /\ accepts CMSZero stub_arguments = true
  /\ exists t leg,
       build CMSZero stub_arguments = (t, Ok leg)
       /\ length leg = 3
       /\ exists c,
            leg !! 1 = Some (CF_CMSCoupon c)
            /\ cms_fixingDays c = 2%Z
            /\ cms_index c = "EuriborSwapFixA10Y"%string.
Proof.
  split; [reflexivity|]. split; [reflexivity|].
  destruct (cms_coupon_configuration CMSZero stub_arguments eq_refl eq_refl)
    as (t & leg & Hrun & Hlen & Hcfg).
  exists t, leg. split; [exact Hrun|]. split; [exact Hlen|].
  destruct (lookup_lt_is_Some_2 leg 1) as [cf Hcf].
  { rewrite Hlen. vm_compute. lia. }
  destruct (Hcfg 1 cf Hcf) as (c & -> & Hidx & Hdays & _).
  exists c. split; [exact Hcf|]. split; [exact Hdays|exact Hidx].
Defined.

Lemma only_boundary_flags_are_read_witness :
  build FixedRate
    (set_schedule quarterly_arguments
       (set_isRegular quarterly_schedule [true; false; false; true]))
  = build FixedRate quarterly_arguments.
Proof.
  exact (only_boundary_flags_are_read FixedRate quarterly_arguments
           [true; false; false; true] eq_refl eq_refl).
Defined.

Lemma cms_builders_ignore_schedule_convention_witness :
  is_CMS_builder CMS = true
  /\ build CMS
       (set_schedule stub_arguments
          (set_tenor_and_convention stub_schedule 89%Z Unadjusted))
     = build CMS stub_arguments.
Proof.
  split; [reflexivity|].
  exact (cms_builders_ignore_schedule_convention CMS stub_arguments
           Unadjusted eq_refl).
Defined.

Lemma regular_stubs_ignore_tenor_and_convention_witness :
  accepts FixedRate quarterly_arguments = true
  /\ build FixedRate
       (set_schedule quarterly_arguments
          (set_tenor_and_convention quarterly_schedule 30%Z Preceding))
     = build FixedRate quarterly_arguments.
Proof.
  split; [reflexivity|].
  exact (regular_stubs_ignore_tenor_and_convention FixedRate
           quarterly_arguments 30%Z Preceding eq_refl eq_refl eq_refl).
Defined.

Lemma entries_beyond_the_periods_are_not_read_witness :
  accepts FixedRate long_arrays_arguments = true
  /\ build FixedRate (map_arrays (take 4) long_arrays_arguments)
     = build FixedRate long_arrays_arguments.
Proof.
  split; [reflexivity|].
  apply (entries_beyond_the_periods_are_not_read FixedRate
           long_arrays_arguments 4 eq_refl).
  vm_compute. lia.
Defined.

Lemma short_arrays_hold_their_last_value_witness :
  accepts CMSInArrears quarterly_arguments = true
  /\ build CMSInArrears (map_arrays (hold_last 3) quarterly_arguments)
     = build CMSInArrears quarterly_arguments.
Proof.
  split; [reflexivity|].
  exact (short_arrays_hold_their_last_value CMSInArrears quarterly_arguments 3
           eq_refl).
Defined.

Lemma cms_builders_differ_in_payment_date_and_flag_only_witness :
  accepts CMS stub_arguments = true
  /\ exists t leg ta lega,
       build CMS stub_arguments = (t, Ok leg)
       /\ build CMSInArrears stub_arguments = (ta, Ok lega)
       /\ lega = with_isInArrears true <$> leg.
Proof.
  split; [reflexivity|].
  destruct (cms_builders_differ_in_payment_date_and_flag_only stub_arguments
              eq_refl)
    as (t & leg & tz & legz & ta & lega & dl & H1 & _ & H3 & _ & Harr & _).
  exists t, leg, ta, lega. split; [exact H1|]. split; [exact H3|exact Harr].
Defined.

Lemma constructions_precede_attachments_witness :
  accepts CMS stub_arguments = true
  /\ exists cs leg,
       build CMS stub_arguments
       = ((Constructed <$> cs)
          ++ ((fun i => VolatilitySet i (arg_vol stub_arguments))
                <$> seq 0 (length cs)),
          Ok leg)
       /\ length cs = 3.
Proof.
  split; [reflexivity|].
  destruct (constructions_precede_attachments CMS stub_arguments eq_refl)
    as (cs & leg & Hrun & Hlen & _).
  exists cs, leg. split; [exact Hrun|exact Hlen].
Defined.

Lemma attachment_on_a_cms_leg_witness :
  Forall (fun cf => is_CMSCoupon cf = true) sample_cms_leg
  /\ exists leg',
       attach_volatility second_handle sample_cms_leg
       = ([VolatilitySet 0 second_handle; VolatilitySet 1 second_handle], Ok leg')
       /\ length leg' = 2.
Proof.
  assert (Hall : Forall (fun cf => is_CMSCoupon cf = true) sample_cms_leg)
    by (repeat constructor).
  split; [exact Hall|].
  destruct (attachment_on_a_cms_leg second_handle sample_cms_leg Hall)
    as (leg' & Hrun & Hlen & _).
  exists leg'. split; [exact Hrun|exact Hlen].
Defined.

Lemma attachment_stops_at_the_first_foreign_element_witness :
  Forall (fun cf => is_CMSCoupon cf = true) sample_cms_leg
  /\ attach_volatility second_handle
       (sample_cms_leg ++ CF_FixedRateCoupon sample_FixedRateCoupon
                          :: sample_cms_leg)
     = ([VolatilitySet 0 second_handle; VolatilitySet 1 second_handle],
        Err (Fail_raised "unexpected error when casting to CMSCoupon")).
Proof.
  assert (Hall : Forall (fun cf => is_CMSCoupon cf = true) sample_cms_leg)
    by (repeat constructor).
  split; [exact Hall|].
  exact (attachment_stops_at_the_first_foreign_element 
           second_handle sample_cms_leg sample_FixedRateCoupon sample_cms_leg Hall).
Defined.
